(** * material-file-input: the file-upload form-field control

    A shallow embedding of [FileUploadAreaComponent]
    (file-upload-area.component.ts) and of the pieces of the JavaScript
    run time it relies on: [Set] objects shared by reference, [parseInt],
    the static [nextId] counter, and the calls the component makes on its
    collaborators (the [stateChanges] subject, the registered change
    callback, the focus monitor and the hidden file input).

    Every method is a computation in a state-and-exception monad over the
    component's fields and the surrounding world (the object heap, the
    static counter and the log of outgoing calls).  A JavaScript exception
    keeps the mutations made before it was thrown, so a computation
    returns its completion together with the state it reached. *)

From stdpp Require Import base list strings pretty numbers.

Open Scope string_scope.
Open Scope list_scope.

(** ** JavaScript values and strings *)

(** A JavaScript string is a sequence of UTF-16 code units. *)
Abbreviation JsString := (list N).

Definition code_units (s : string) : JsString :=
  Ascii.N_of_ascii <$> String.list_ascii_of_string s.

(** The values a template binding can hand to an [@Input()] setter.
    Numbers are the integers (floating point is outside the embedding)
    and [NaN]. *)
Inductive JsValue :=
| JsUndefined
| JsNull
| JsBoolean (b : bool)
| JsNumber (n : Z)
| JsNaN
| JsStr (s : string).

(** [ToBoolean]: the truthiness of a value. *)
Definition truthy (v : JsValue) : bool :=
  match v with
  | JsUndefined | JsNull | JsNaN => false
  | JsBoolean b => b
  | JsNumber n => negb (n =? 0)%Z
  | JsStr s => negb (String.eqb s "")
  end.

(** [ToString], as used by a template literal. *)
Definition ToString (v : JsValue) : string :=
  match v with
  | JsUndefined => "undefined"
  | JsNull => "null"
  | JsBoolean true => "true"
  | JsBoolean false => "false"
  | JsNumber n => pretty n
  | JsNaN => "NaN"
  | JsStr s => s
  end.

(** ** [parseInt(string, 10)] *)

(** [StrWhiteSpaceChar]: white space and line terminators. *)
Definition is_StrWhiteSpaceChar (c : N) : bool :=
  ((9 <=? c) && (c <=? 13) || (c =? 32) || (c =? 160) || (c =? 5760)
   || (8192 <=? c) && (c <=? 8202) || (c =? 8232) || (c =? 8233)
   || (c =? 8239) || (c =? 8287) || (c =? 12288) || (c =? 65279))%N.

Definition is_decimal_digit (c : N) : bool := ((48 <=? c) && (c <=? 57))%N.

Fixpoint skip_white_space (s : JsString) : JsString :=
  match s with
  | c :: r => if is_StrWhiteSpaceChar c then skip_white_space r else s
  | [] => []
  end.

(** The longest prefix made of decimal digits. *)
Fixpoint digit_prefix (s : JsString) : JsString :=
  match s with
  | c :: r => if is_decimal_digit c then c :: digit_prefix r else []
  | [] => []
  end.

Definition digits_value (ds : JsString) : Z :=
  foldl (fun acc c => acc * 10 + Z.of_N (c - 48))%Z 0%Z ds.

(** [parseInt(s, 10)]; [None] stands for [NaN].  Leading white space is
    dropped, then an optional sign, then the longest run of decimal digits
    is read; whatever follows the digits is ignored. *)
Definition parseInt10 (s : JsString) : option Z :=
  let s1 := skip_white_space s in
  let '(sign, s2) :=
    match s1 with
    | c :: r =>
        if (c =? 45)%N then ((-1)%Z, r)
        else if (c =? 43)%N then (1%Z, r)
        else (1%Z, s1)
    | [] => (1%Z, s1)
    end in
  match digit_prefix s2 with
  | [] => None
  | ds => Some (sign * digits_value ds)%Z
  end.

Definition isNaN (x : option Z) : bool :=
  match x with None => true | Some _ => false end.

(** ** [Set<File>] *)

(** A [File] is opaque and compared by reference: a handle. *)
Abbreviation File := nat.

(** A [Set] keeps its members in insertion order, each once. *)
Abbreviation JsSet := (list File).

Definition Set_has (f : File) (s : JsSet) : bool := bool_decide (f ∈ s).

(** [s.add(f)]: appended unless already a member. *)
Definition Set_add (f : File) (s : JsSet) : JsSet :=
  if Set_has f s then s else s ++ [f].

(** [s.delete(f)]: drops the first entry equal to [f]; the flag tells
    whether one was found. *)
Fixpoint Set_delete (f : File) (s : JsSet) : JsSet * bool :=
  match s with
  | [] => ([], false)
  | x :: r =>
      if decide (x = f) then (r, true)
      else let '(r', found) := Set_delete f r in (x :: r', found)
  end.

Definition Set_size (s : JsSet) : nat := length s.

(** [new Set(iterable)]. *)
Definition Set_of (fs : list File) : JsSet :=
  foldl (fun s f => Set_add f s) [] fs.

(** ** Objects and collaborators *)

(** References into the heap of [Set] objects and of wrapper objects, and
    handles for the objects the framework owns. *)
Abbreviation SetRef := nat.
Abbreviation WrapperRef := nat.
Abbreviation SubjectRef := nat.
Abbreviation Element := nat.
Abbreviation Callback := nat.
Abbreviation NgControl := nat.

Module MyFileListInput.

(** Modelled from the spec: the class [MyFileListInput] lives in
    my-file-list.input.ts, which the component imports and which is
    missing from the repository's sources.  Section 3 describes it as "a thin
    carrier object exposing the current Selection": one field, [files],
    holding the [Set] handed to the constructor (the component reads it
    back as [val.files]). *)
Record t := { files : SetRef }.

Definition new (fs : SetRef) : t := {| files := fs |}.

End MyFileListInput.

(** The native picker's selected-files collection,
    [{ [key: string]: File }], in the order [for ... in] visits its keys. *)
Abbreviation FileCollection := (list (JsString * File)).

(** What the focus monitor pushes: an origin, or [null] on blur. *)
Inductive FocusOrigin := touch | mouse | keyboard | program.

(** The calls the component makes on objects it does not own, in the
    order it makes them. *)
Inductive Call :=
| Subject_next (s : SubjectRef)
| Subject_complete (s : SubjectRef)
| Invoke (fn : Callback) (arg : SetRef)
| monitor (el : Element) (checkChildren : bool)
| stopMonitoring (el : Element)
| click (el : Element)
| set_valueAccessor (ctl : NgControl) (accessor : string).

#[global] Instance Call_eq_dec : EqDecision Call.
Proof. solve_decision. Defined.

(** Everything outside the component's own fields: the heap of [Set]
    objects, the heap of wrappers, the number of subjects created so far,
    the static [FileUploadAreaComponent.nextId] and the call log.  The
    counter is a JavaScript number holding a natural number; see
    [Number_increment] for what [++] does to it. *)
Record World := {
  sets : list JsSet;
  wrappers : list MyFileListInput.t;
  subjects : nat;
  nextId : N;
  calls : list Call
}.

Definition World_init : World :=
  {| sets := []; wrappers := []; subjects := 0; nextId := 0; calls := [] |}.

Record Component := {
  fileInputElement : Element;
  files : SetRef;
  stateChanges : SubjectRef;
  _onChange : option Callback;
  id : string;
  _disabled : bool;
  focused : bool;
  errorState : bool;
  controlType : string;
  describedBy : string;
  _required : bool;
  ngControl : option NgControl;
  elRef : Element
}.

Definition with_sets (v : list JsSet) (w : World) : World :=
  {| sets := v; wrappers := wrappers w; subjects := subjects w;
     nextId := nextId w; calls := calls w |}.

Definition with_wrappers (v : list MyFileListInput.t) (w : World) : World :=
  {| sets := sets w; wrappers := v; subjects := subjects w;
     nextId := nextId w; calls := calls w |}.

Definition with_calls (v : list Call) (w : World) : World :=
  {| sets := sets w; wrappers := wrappers w; subjects := subjects w;
     nextId := nextId w; calls := v |}.

Definition with_files (v : SetRef) (c : Component) : Component :=
  {| fileInputElement := fileInputElement c; files := v;
     stateChanges := stateChanges c; _onChange := _onChange c; id := id c;
     _disabled := _disabled c; focused := focused c;
     errorState := errorState c; controlType := controlType c;
     describedBy := describedBy c; _required := _required c;
     ngControl := ngControl c; elRef := elRef c |}.

Definition with_onChange (v : option Callback) (c : Component) : Component :=
  {| fileInputElement := fileInputElement c; files := files c;
     stateChanges := stateChanges c; _onChange := v; id := id c;
     _disabled := _disabled c; focused := focused c;
     errorState := errorState c; controlType := controlType c;
     describedBy := describedBy c; _required := _required c;
     ngControl := ngControl c; elRef := elRef c |}.

Definition with_disabled (v : bool) (c : Component) : Component :=
  {| fileInputElement := fileInputElement c; files := files c;
     stateChanges := stateChanges c; _onChange := _onChange c; id := id c;
     _disabled := v; focused := focused c;
     errorState := errorState c; controlType := controlType c;
     describedBy := describedBy c; _required := _required c;
     ngControl := ngControl c; elRef := elRef c |}.

Definition with_focused (v : bool) (c : Component) : Component :=
  {| fileInputElement := fileInputElement c; files := files c;
     stateChanges := stateChanges c; _onChange := _onChange c; id := id c;
     _disabled := _disabled c; focused := v;
     errorState := errorState c; controlType := controlType c;
     describedBy := describedBy c; _required := _required c;
     ngControl := ngControl c; elRef := elRef c |}.

Definition with_describedBy (v : string) (c : Component) : Component :=
  {| fileInputElement := fileInputElement c; files := files c;
     stateChanges := stateChanges c; _onChange := _onChange c; id := id c;
     _disabled := _disabled c; focused := focused c;
     errorState := errorState c; controlType := controlType c;
     describedBy := v; _required := _required c;
     ngControl := ngControl c; elRef := elRef c |}.

Definition with_required (v : bool) (c : Component) : Component :=
  {| fileInputElement := fileInputElement c; files := files c;
     stateChanges := stateChanges c; _onChange := _onChange c; id := id c;
     _disabled := _disabled c; focused := focused c;
     errorState := errorState c; controlType := controlType c;
     describedBy := describedBy c; _required := v;
     ngControl := ngControl c; elRef := elRef c |}.

(** ** The monad of method bodies *)

Record State := { this : Component; world : World }.

(** [DanglingRef] is raised on reading through a reference that points
    outside the heap: the model's stand-in for reading through a value
    that is not the object expected (JavaScript raises an error of its
    own there).  Well-formed states never produce it. *)
Inductive Exn :=
| TypeError (msg : string)
| DanglingRef.

Inductive Completion (A : Type) :=
| Normal (a : A)
| Throw (e : Exn).
Arguments Normal {A} a.
Arguments Throw {A} e.

Definition M (A : Type) : Type := State -> Completion A * State.

#[global] Instance M_ret : MRet M := fun A a st => (Normal a, st).

#[global] Instance M_bind : MBind M := fun A B f m st =>
  match m st with
  | (Normal a, st') => f a st'
  | (Throw e, st') => (Throw e, st')
  end.

Definition throw {A} (e : Exn) : M A := fun st => (Throw e, st).

Definition get_this : M Component := fun st => (Normal (this st), st).

Definition get_world : M World := fun st => (Normal (world st), st).

Definition modify_this (f : Component -> Component) : M unit :=
  fun st => (Normal (), {| this := f (this st); world := world st |}).

Definition modify_world (f : World -> World) : M unit :=
  fun st => (Normal (), {| this := this st; world := f (world st) |}).

Definition log (c : Call) : M unit :=
  modify_world (fun w => with_calls (calls w ++ [c]) w).

Definition deref_set (r : SetRef) : M JsSet :=
  w ← get_world;
  match sets w !! r with
  | Some s => mret s
  | None => throw DanglingRef
  end.

Definition store_set (r : SetRef) (s : JsSet) : M unit :=
  modify_world (fun w => with_sets (<[r := s]> (sets w)) w).

Definition deref_wrapper (r : WrapperRef) : M MyFileListInput.t :=
  w ← get_world;
  match wrappers w !! r with
  | Some o => mret o
  | None => throw DanglingRef
  end.

(** [new Set()] and [new MyFileListInput(fs)]: a fresh address at the end
    of the heap. *)
Definition new_Set (s : JsSet) : M SetRef :=
  w ← get_world;
  modify_world (with_sets (sets w ++ [s]));;
  mret (length (sets w)).

Definition new_MyFileListInput (fs : SetRef) : M WrapperRef :=
  w ← get_world;
  modify_world (with_wrappers (wrappers w ++ [MyFileListInput.new fs]));;
  mret (length (wrappers w)).

(** ** [coerceBooleanProperty] *)

(** Modelled from the spec: [coerceBooleanProperty] is imported from
    @angular/cdk/coercion and is not among the repository's sources.
    Section 4.1 calls it "a permissive coercion: presence of the attribute
    or truthy value => true"; the definition is the library's own,
    [value != null && `${value}` !== 'false'], under which an attribute
    that is merely present (the empty string) counts as true. *)
Definition coerceBooleanProperty (value : JsValue) : bool :=
  match value with
  | JsUndefined | JsNull => false
  | _ => negb (String.eqb (ToString value) "false")
  end.

(** ** [nextId++] *)

(** A JavaScript number is a double: it counts exactly up to 2^53.  From
    there to 2^54 only the even numbers exist and [n + 1] lies halfway
    between two of them, so it is rounded to the one whose significand is
    even; from 2^54 on, [n + 1] is rounded back to [n]. *)
Definition Number_increment (n : N) : N :=
  if (n <? 2 ^ 53)%N then (n + 1)%N
  else if (n <? 2 ^ 54)%N then
    (if N.even (n / 2) then n else n + 2)%N
  else n.

(** ** The component *)

Definition id_prefix : string := "app-file-upload-area".

(** [this.stateChanges.next()]. *)
Definition stateChanges_next : M unit :=
  c ← get_this;
  log (Subject_next (stateChanges c)).

(** [this._onChange(this.files)]: calling a field that was never assigned
    is a [TypeError]. *)
Definition call_onChange : M unit :=
  c ← get_this;
  match _onChange c with
  | Some fn => log (Invoke fn (files c))
  | None => throw (TypeError "this._onChange is not a function")
  end.

(** The field initialisers followed by the constructor body.  [input] is
    the hidden file input the view child resolves to. *)
Definition constructor (ngControl : option NgControl) (elRef input : Element)
    (w : World) : State :=
  let c :=
    {| fileInputElement := input;
       files := length (sets w);
       stateChanges := subjects w;
       _onChange := None;
       id := String.append id_prefix (pretty (nextId w));
       _disabled := false;
       focused := false;
       errorState := false;
       controlType := "app-file-upload-area";
       describedBy := "";
       _required := false;
       ngControl := ngControl;
       elRef := elRef |} in
  let w1 :=
    {| sets := sets w ++ [[]];
       wrappers := wrappers w;
       subjects := S (subjects w);
       nextId := Number_increment (nextId w);
       calls := calls w ++ [monitor elRef true] |} in
  let w2 :=
    match ngControl with
    | Some ctl => with_calls (calls w1 ++ [set_valueAccessor ctl (id c)]) w1
    | None => w1
    end in
  {| this := c; world := w2 |}.

(** The subscriber of [fm.monitor(...)]. *)
Definition on_focus_origin (origin : option FocusOrigin) : M unit :=
  modify_this (with_focused (match origin with Some _ => true | None => false end));;
  stateChanges_next.

Definition get_value : M WrapperRef :=
  c ← get_this;
  new_MyFileListInput (files c).

Definition set_value (val : WrapperRef) : M unit :=
  o ← deref_wrapper val;
  modify_this (with_files (MyFileListInput.files o));;
  stateChanges_next;;
  call_onChange.

Definition get_empty : M bool :=
  c ← get_this;
  s ← deref_set (files c);
  mret (bool_decide (Set_size s < 1)).

Definition get_shouldLabelFloat : M bool :=
  c ← get_this;
  if focused c then mret true
  else e ← get_empty; mret (negb e).

Definition get_required : M bool := c ← get_this; mret (_required c).

Definition set_required (req : JsValue) : M unit :=
  modify_this (with_required (coerceBooleanProperty req));;
  stateChanges_next.

Definition get_disabled : M bool := c ← get_this; mret (_disabled c).

Definition set_disabled (dis : JsValue) : M unit :=
  modify_this (with_disabled (coerceBooleanProperty dis));;
  stateChanges_next.

Definition setDescribedByIds (ids : list string) : M unit :=
  modify_this (with_describedBy (String.concat " " ids)).

Definition onContainerClick : M unit := mret ().

Definition ngOnInit : M unit := mret ().

(** One turn of the [for (const key in files)] loop. *)
Definition onFilesAdded_step (entry : JsString * File) : M unit :=
  let '(key, file) := entry in
  if negb (isNaN (parseInt10 key)) then
    c ← get_this;
    s ← deref_set (files c);
    store_set (files c) (Set_add file s)
  else mret ().

Fixpoint for_in (entries : FileCollection) : M unit :=
  match entries with
  | [] => mret ()
  | e :: rest => onFilesAdded_step e;; for_in rest
  end.

(** [selected] is the value of
    [this.fileInputElement.nativeElement.files] when the handler runs. *)
Definition onFilesAdded (selected : FileCollection) : M unit :=
  for_in selected;;
  stateChanges_next;;
  call_onChange.

Definition addFiles : M unit :=
  c ← get_this;
  log (click (fileInputElement c)).

Definition removeFile (file : File) : M unit :=
  c ← get_this;
  s ← deref_set (files c);
  store_set (files c) (Set_delete file s).1;;
  stateChanges_next;;
  call_onChange.

Definition ngOnDestroy : M unit :=
  c ← get_this;
  log (Subject_complete (stateChanges c));;
  log (stopMonitoring (elRef c)).

Definition registerOnChange (fn : Callback) : M unit :=
  modify_this (with_onChange (Some fn)).

Definition registerOnTouched : M unit := mret ().

Definition setDisabledState (isDisabled : bool) : M unit := mret ().

Definition writeValue : M unit := mret ().

(** ** The [stateChanges] subject, seen from a subscriber *)

(** An rxjs [Subject] belongs to the library, not to the component; what
    matters here is its contract: [complete()] stops the subject, and
    [next()] on a stopped subject reaches nobody. *)
Definition isStopped (s : SubjectRef) (cs : list Call) : bool :=
  bool_decide (Subject_complete s ∈ cs).

(** The number of [next] notifications a subscriber of [s] receives when
    the calls [cs] are made on a subject that was live before them. *)
Fixpoint emissions (s : SubjectRef) (cs : list Call) : nat :=
  match cs with
  | [] => 0
  | c :: r =>
      if decide (c = Subject_complete s) then 0
      else (if decide (c = Subject_next s) then 1 else 0) + emissions s r
  end.

(** How many times a given call occurs in a log. *)
Definition count_call (c : Call) (cs : list Call) : nat :=
  length (filter (fun c' => c' = c) cs).

(** ** Runs *)

Inductive Method :=
| m_get_value
| m_set_value (val : WrapperRef)
| m_get_empty
| m_get_shouldLabelFloat
| m_get_required
| m_set_required (req : JsValue)
| m_get_disabled
| m_set_disabled (dis : JsValue)
| m_setDescribedByIds (ids : list string)
| m_onContainerClick
| m_ngOnInit
| m_onFilesAdded (selected : FileCollection)
| m_addFiles
| m_removeFile (file : File)
| m_ngOnDestroy
| m_registerOnChange (fn : Callback)
| m_registerOnTouched
| m_setDisabledState (isDisabled : bool)
| m_writeValue
| m_focus_origin (origin : option FocusOrigin).

Definition discard {A} (m : M A) : M unit := m ≫= fun _ => mret ().

Definition invoke (m : Method) : M unit :=
  match m with
  | m_get_value => discard get_value
  | m_set_value val => set_value val
  | m_get_empty => discard get_empty
  | m_get_shouldLabelFloat => discard get_shouldLabelFloat
  | m_get_required => discard get_required
  | m_set_required req => set_required req
  | m_get_disabled => discard get_disabled
  | m_set_disabled dis => set_disabled dis
  | m_setDescribedByIds ids => setDescribedByIds ids
  | m_onContainerClick => onContainerClick
  | m_ngOnInit => ngOnInit
  | m_onFilesAdded selected => onFilesAdded selected
  | m_addFiles => addFiles
  | m_removeFile file => removeFile file
  | m_ngOnDestroy => ngOnDestroy
  | m_registerOnChange fn => registerOnChange fn
  | m_registerOnTouched => registerOnTouched
  | m_setDisabledState b => setDisabledState b
  | m_writeValue => writeValue
  | m_focus_origin origin => on_focus_origin origin
  end.

(** What else happens on the page: other code builds sets and wrappers,
    changes a set it holds a reference to, or constructs another instance
    of the component. *)
Inductive Action :=
| Do (m : Method)
| Page_new_Set (fs : list File)
| Page_new_wrapper (fs : SetRef)
| Page_Set_add (r : SetRef) (f : File)
| Page_Set_delete (r : SetRef) (f : File)
| Page_construct (ngControl : option NgControl) (elRef input : Element).

(** The state after an action; an exception ends the handler that raised
    it and the page goes on from the state reached. *)
Definition step (a : Action) (st : State) : State :=
  match a with
  | Do m => (invoke m st).2
  | Page_new_Set fs => (new_Set (Set_of fs) st).2
  | Page_new_wrapper fs => (new_MyFileListInput fs st).2
  | Page_Set_add r f =>
      match sets (world st) !! r with
      | Some s => (store_set r (Set_add f s) st).2
      | None => st
      end
  | Page_Set_delete r f =>
      match sets (world st) !! r with
      | Some s => (store_set r (Set_delete f s).1 st).2
      | None => st
      end
  | Page_construct ngc el input =>
      {| this := this st; world := world (constructor ngc el input (world st)) |}
  end.

Definition run (acts : list Action) (st : State) : State :=
  foldl (fun st a => step a st) st acts.

(** References handed to the component point into the heap. *)
Definition possible (st : State) (a : Action) : Prop :=
  match a with
  | Do (m_set_value val) => val < length (wrappers (world st))
  | Page_new_wrapper fs => fs < length (sets (world st))
  | _ => True
  end.

(** The states of a component in a page session: constructed on a page
    that may already have seen any number of actions, then driven by its
    own methods and by the rest of the page. *)
Inductive page : World -> Prop :=
| page_init : page World_init
| page_new_Set w fs :
    page w -> page (with_sets (sets w ++ [Set_of fs]) w)
| page_new_wrapper w fs :
    page w -> fs < length (sets w) ->
    page (with_wrappers (wrappers w ++ [MyFileListInput.new fs]) w)
| page_construct w ngc el input :
    page w -> page (world (constructor ngc el input w)).

Inductive reachable : State -> Prop :=
| reachable_constructor w ngc el input :
    page w -> reachable (constructor ngc el input w)
| reachable_step st a :
    reachable st -> possible st a -> reachable (step a st).

(** The selection: the [Set] object [this.files] points to. *)
Definition selection (st : State) : option JsSet :=
  sets (world st) !! files (this st).

(** The [Set] object seen through a wrapper. *)
Definition through (r : WrapperRef) (st : State) : option JsSet :=
  o ← wrappers (world st) !! r;
  sets (world st) !! MyFileListInput.files o.

(** Well-formed states: no dangling reference, no set with a repeated
    member. *)
Record wf (st : State) : Prop := {
  wf_files : files (this st) < length (sets (world st));
  wf_wrappers :
    Forall (fun o => MyFileListInput.files o < length (sets (world st)))
           (wrappers (world st));
  wf_sets : Forall NoDup (sets (world st))
}.

(** The entries the [for ... in] loop of [onFilesAdded] lets through. *)
Definition numeric_key (key : JsString) : bool :=
  negb (isNaN (parseInt10 key)).

Definition added_files (selected : FileCollection) : list File :=
  (filter (fun e => numeric_key e.1 = true) selected).*2.

Definition Set_add_all (fs : list File) (s : JsSet) : JsSet :=
  foldl (fun s f => Set_add f s) s fs.

(** The spec's "index-like (numeric)" keys, read as the decimal spelling
    of an index: one or more decimal digits and nothing else. *)
Definition index_like (key : JsString) : bool :=
  match key with
  | [] => false
  | _ => forallb is_decimal_digit key
  end.



(** A page session: instances constructed one after the other, each
    followed by whatever happens before the next one is constructed. *)
Definition Args : Type := option NgControl * Element * Element.

Fixpoint session (plan : list (Args * list Action)) (w : World)
    : list Component * World :=
  match plan with
  | [] => ([], w)
  | ((ngc, el, input), acts) :: rest =>
      let st := constructor ngc el input w in
      let '(cs, w') := session rest (world (run acts st)) in
      (this st :: cs, w')
  end.

(** The numeric suffix of an instance's id, when it has the fixed prefix. *)
Definition has_suffix (n : N) (c : Component) : Prop :=
  id c = String.append id_prefix (pretty n).

(** The methods that change the selection, with a reference that exists
    where they take one. *)
Definition is_mutator (st : State) (m : Method) : Prop :=
  match m with
  | m_set_value val => val < length (wrappers (world st))
  | m_onFilesAdded _ | m_removeFile _ => True
  | _ => False
  end.

Definition is_Invoke (fn : Callback) (c : Call) : bool :=
  match c with
  | Invoke fn' _ => bool_decide (fn' = fn)
  | _ => false
  end.

(** How many times the callback [fn] is invoked in a log. *)
Definition invocations (fn : Callback) (cs : list Call) : nat :=
  length (filter (fun c => is_Invoke fn c = true) cs).

Definition is_boolean (v : JsValue) : bool :=
  match v with JsBoolean _ => true | _ => false end.

(** The spec's sentence on the setters read to the letter, for one input
    [v]: a truthy value that is not a boolean is stored as [true], and the
    empty string, zero and [undefined] are stored as [false]. *)
Definition stored_by_truthiness (v : JsValue) : Prop :=
  forall st,
    let r := _required (this (set_required v st).2) in
    let d := _disabled (this (set_disabled v st).2) in
    (is_boolean v = false -> truthy v = true -> r = true ∧ d = true)
    ∧ (v ∈ [JsStr ""; JsNumber 0; JsUndefined] -> r = false ∧ d = false).

(** The one action that assigns [this.files]. *)
Definition reassigns_files (a : Action) : bool :=
  match a with
  | Do (m_set_value _) => true
  | _ => false
  end.

(** ** Sample states *)

Definition fileA : File := 1.
Definition fileB : File := 2.

(** An instance used outside a form: no [NgControl], so nobody calls
    [registerOnChange]. *)
Definition standalone : State := constructor None 0 1 World_init.

(** An instance bound to a form control, whose forms directive has
    registered its change callback. *)
Definition in_form : State :=
  run [Do (m_registerOnChange 0)] (constructor (Some 0) 0 1 World_init).

(** The scenario of section 8: the page builds [wrapper({fileA, fileB})],
    then assigns it to [value]. *)
Definition wrapper_ready : State :=
  run [Page_new_Set [fileA; fileB]; Page_new_wrapper 1] in_form.

Definition two_files : State := run [Do (m_set_value 0)] wrapper_ready.

(** The methods whose body calls [this.stateChanges.next()]. *)
Definition notifies (m : Method) : bool :=
  match m with
  | m_set_value _ | m_onFilesAdded _ | m_removeFile _
  | m_set_required _ | m_set_disabled _ | m_focus_origin _ => true
  | _ => false
  end.

(** A run in which every action is possible in the state it meets. *)
Fixpoint possible_run (acts : list Action) (st : State) : Prop :=
  match acts with
  | [] => True
  | a :: rest => possible st a ∧ possible_run rest (step a st)
  end.

(** The fields no method assigns. *)
Definition same_identity (c c' : Component) : Prop :=
  id c' = id c
  ∧ stateChanges c' = stateChanges c
  ∧ elRef c' = elRef c
  ∧ ngControl c' = ngControl c
  ∧ fileInputElement c' = fileInputElement c
  ∧ errorState c' = errorState c
  ∧ controlType c' = controlType c.

(** A page on which one set and one wrapper around it already exist. *)
Definition busy_page : World :=
  with_wrappers (wrappers (with_sets (sets World_init ++ [Set_of [fileA]]) World_init)
                 ++ [MyFileListInput.new 0])
    (with_sets (sets World_init ++ [Set_of [fileA]]) World_init).

(** The page has assigned a wrapper whose [files] is not a [Set]
    ([value = new MyFileListInput(undefined)]): [this.files] points
    nowhere. *)
Definition no_set : State :=
  run [Page_new_wrapper 9; Do (m_set_value 0)] in_form.

(** * Properties *)

(** ** A few evaluations *)

Example parseInt10_index : parseInt10 (code_units "12") = Some 12%Z.
Proof. reflexivity. Qed.

Example parseInt10_prefix : parseInt10 (code_units "1abc") = Some 1%Z.
Proof. reflexivity. Qed.

Example parseInt10_signed : parseInt10 (code_units " -7px") = Some (-7)%Z.
Proof. reflexivity. Qed.

Example parseInt10_length : parseInt10 (code_units "length") = None.
Proof. reflexivity. Qed.

Example first_two_ids :
  id <$> (session [((None, 0, 1), []); ((None, 2, 3), [])] World_init).1 =
  ["app-file-upload-area0"; "app-file-upload-area1"].
Proof. reflexivity. Qed.

Example ids_repeat_at_2_53 :
  id <$> (session [((None, 0, 1), []); ((None, 2, 3), [])]
            {| sets := []; wrappers := []; subjects := 0;
               nextId := 2 ^ 53; calls := [] |}).1 =
  ["app-file-upload-area9007199254740992"; "app-file-upload-area9007199254740992"].
Proof. reflexivity. Qed.

Example scenario_two_files : selection two_files = Some [fileA; fileB].
Proof. reflexivity. Qed.

Example scenario_remove_twice :
  selection (run [Do (m_removeFile fileA); Do (m_removeFile fileA)] two_files)
  = Some [fileB].
Proof. reflexivity. Qed.

(** ** Sets *)

Lemma elem_of_Set_add (g f : File) (s : JsSet) :
  g ∈ Set_add f s ↔ g = f ∨ g ∈ s.
Proof.
  unfold Set_add, Set_has. case_bool_decide as Hin.
  - split; [tauto | intros [-> | ?]; done].
  - rewrite elem_of_app, list_elem_of_singleton. tauto.
Qed.

Lemma Set_add_present (f : File) (s : JsSet) : f ∈ s -> Set_add f s = s.
Proof. intros Hin. unfold Set_add, Set_has. by rewrite bool_decide_eq_true_2. Qed.

Lemma Set_add_NoDup (f : File) (s : JsSet) : NoDup s -> NoDup (Set_add f s).
Proof.
  intros Hs. unfold Set_add, Set_has. case_bool_decide as Hin; [done |].
  apply list.NoDup_app. split_and!; [done | | apply list.NoDup_singleton].
  intros x Hx ->%list_elem_of_singleton. done.
Qed.

Lemma Set_add_all_NoDup (fs : list File) (s : JsSet) :
  NoDup s -> NoDup (Set_add_all fs s).
Proof.
  revert s. induction fs as [| f fs IH]; intros s Hs; [done |].
  apply IH, Set_add_NoDup, Hs.
Qed.

Lemma Set_add_all_present (fs : list File) (s : JsSet) :
  Forall (fun f => f ∈ s) fs -> Set_add_all fs s = s.
Proof.
  induction 1 as [| f fs Hf _ IH]; [done |].
  cbn. by rewrite Set_add_present.
Qed.

Lemma elem_of_Set_add_all (g : File) (fs : list File) (s : JsSet) :
  g ∈ Set_add_all fs s ↔ g ∈ fs ∨ g ∈ s.
Proof.
  revert s. induction fs as [| f fs IH]; intros s; cbn.
  - rewrite elem_of_nil. tauto.
  - unfold Set_add_all in IH. rewrite IH, elem_of_Set_add, elem_of_cons. tauto.
Qed.

Lemma Set_of_NoDup (fs : list File) : NoDup (Set_of fs).
Proof. apply (Set_add_all_NoDup fs []), NoDup_nil_2. Qed.

Lemma Set_delete_absent (f : File) (s : JsSet) :
  f ∉ s -> Set_delete f s = (s, false).
Proof.
  induction s as [| x s IH]; [done |].
  intros [Hne Hs]%not_elem_of_cons. cbn.
  rewrite decide_False by done. by rewrite IH.
Qed.

Lemma elem_of_Set_delete_1 (g f : File) (s : JsSet) :
  g ∈ (Set_delete f s).1 -> g ∈ s.
Proof.
  induction s as [| x s IH]; cbn; [done |].
  destruct (decide (x = f)) as [-> | Hne]; cbn.
  - rewrite elem_of_cons. tauto.
  - destruct (Set_delete f s) as [r found]; cbn in *.
    rewrite !elem_of_cons. tauto.
Qed.

Lemma elem_of_Set_delete (g f : File) (s : JsSet) :
  NoDup s -> g ∈ (Set_delete f s).1 ↔ g ≠ f ∧ g ∈ s.
Proof.
  induction s as [| x s IH]; cbn.
  - intros _. rewrite elem_of_nil. tauto.
  - intros [Hx Hs]%list.NoDup_cons. destruct (decide (x = f)) as [-> | Hne]; cbn.
    + rewrite elem_of_cons. split; [intros Hg; split; [intros ->; done | tauto] | tauto].
    + specialize (IH Hs). destruct (Set_delete f s) as [r found]; cbn in *.
      rewrite !elem_of_cons, IH. split; [intros [-> | ?]; tauto | tauto].
Qed.

Lemma Set_delete_NoDup (f : File) (s : JsSet) :
  NoDup s -> NoDup (Set_delete f s).1.
Proof.
  induction s as [| x s IH]; cbn; [done |].
  intros [Hx Hs]%list.NoDup_cons. destruct (decide (x = f)) as [-> | Hne]; [done |].
  specialize (IH Hs). pose proof (elem_of_Set_delete_1 x f s) as Hsub.
  destruct (Set_delete f s) as [r found]; cbn in *.
  apply list.NoDup_cons. tauto.
Qed.

Lemma filter_ne_absent (f : File) (s : JsSet) :
  f ∉ s -> filter (fun g => g ≠ f) s = s.
Proof.
  induction s as [| x s IH]; [done |].
  intros [Hne Hs]%not_elem_of_cons.
  rewrite filter_cons_True by done. by rewrite IH.
Qed.

Lemma Set_delete_filter (f : File) (s : JsSet) :
  NoDup s -> (Set_delete f s).1 = filter (fun g => g ≠ f) s.
Proof.
  induction s as [| x s IH]; [done |].
  intros [Hx Hs]%list.NoDup_cons. destruct (decide (x = f)) as [-> | Hne].
  - rewrite filter_cons_False by (intros ?; done).
    rewrite filter_ne_absent by done. cbn. by rewrite decide_True.
  - rewrite filter_cons_True by done. rewrite <- (IH Hs). cbn.
    rewrite decide_False by done. by destruct (Set_delete f s).
Qed.

(** ** Evaluating method bodies *)

Ltac unfold_M :=
  cbn [invoke step] in *;
  repeat progress unfold discard, set_value, get_value, get_empty, get_shouldLabelFloat,
    get_required, set_required, get_disabled, set_disabled,
    setDescribedByIds, onContainerClick, ngOnInit, onFilesAdded, addFiles,
    removeFile, ngOnDestroy, registerOnChange, registerOnTouched,
    setDisabledState, writeValue, on_focus_origin, stateChanges_next,
    call_onChange, new_Set, new_MyFileListInput, deref_set, deref_wrapper,
    store_set, log, modify_world, modify_this, get_world, get_this, throw,
    mbind, mret, M_bind, M_ret in *;
  cbn in *.

Lemma selection_lt (st : State) (s : JsSet) :
  selection st = Some s -> files (this st) < length (sets (world st)).
Proof. apply lookup_lt_Some. Qed.

(** ** The value of the floating-label flag *)

Lemma Set_size_lt_1 (s : JsSet) : Set_size s < 1 ↔ s = [].
Proof. split; [destruct s; [done | cbn; lia] | intros ->; cbn; lia]. Qed.

(** C6: [empty] is true exactly when the selection has no member, and
    [shouldLabelFloat] is [focused || !empty]; so the label floats iff
    the control is focused or some file is selected. *)
Theorem shouldLabelFloat_iff (st : State) (s : JsSet) :
  selection st = Some s ->
  exists e b : bool,
    get_empty st = (Normal e, st)
    ∧ get_shouldLabelFloat st = (Normal b, st)
    ∧ (e = true ↔ s = [])
    ∧ (e = true ↔ forall f, f ∉ s)
    ∧ b = focused (this st) || negb e
    ∧ (b = true ↔ focused (this st) = true ∨ s ≠ [])
    ∧ (b = true ↔ focused (this st) = true ∨ exists f, f ∈ s).
Proof.
  unfold selection. intros Hs.
  assert (s = [] ↔ forall f, f ∉ s) as Hnone.
  { destruct s as [| x s]; split; try done.
    - intros _ f. apply not_elem_of_nil.
    - intros Hall. destruct (Hall x). apply elem_of_cons. by left. }
  assert (s ≠ [] ↔ exists f, f ∈ s) as Hsome.
  { destruct s as [| x s]; split; try done.
    - intros [f Hf]. by apply elem_of_nil in Hf.
    - intros _. exists x. apply elem_of_cons. by left. }
  exists (bool_decide (Set_size s < 1)),
         (focused (this st) || negb (bool_decide (Set_size s < 1))).
  assert (get_empty st = (Normal (bool_decide (Set_size s < 1)), st)) as ->
    by (unfold_M; by rewrite Hs).
  assert (get_shouldLabelFloat st =
          (Normal (focused (this st) || negb (bool_decide (Set_size s < 1))), st)) as ->
    by (destruct (focused (this st)) eqn:Hfoc; unfold_M; by rewrite ?Hfoc, ?Hs).
  assert (bool_decide (Set_size s < 1) = true ↔ s = []) as Hempty
    by (by rewrite bool_decide_eq_true, Set_size_lt_1).
  assert (focused (this st) || negb (bool_decide (Set_size s < 1)) = true
          ↔ focused (this st) = true ∨ s ≠ []) as Hfloat.
  { destruct (focused (this st)); cbn; [tauto |].
    destruct (bool_decide (Set_size s < 1)); cbn.
    - split; [done |]. intros [? | Hne]; [done |]. destruct Hne. by apply Hempty.
    - split; [| done]. intros _. right. intros Hnil. apply Hempty in Hnil. done. }
  split_and!; try done.
  - by rewrite Hempty.
  - rewrite Hfloat. by rewrite Hsome.
Qed.

Lemma shouldLabelFloat_iff_witness :
  exists e b : bool,
    get_empty two_files = (Normal e, two_files)
    ∧ get_shouldLabelFloat two_files = (Normal b, two_files)
    ∧ (e = true ↔ [fileA; fileB] = [])
    ∧ (e = true ↔ forall f, f ∉ [fileA; fileB])
    ∧ b = focused (this two_files) || negb e
    ∧ (b = true ↔ focused (this two_files) = true ∨ [fileA; fileB] ≠ [])
    ∧ (b = true ↔ focused (this two_files) = true ∨ exists f, f ∈ [fileA; fileB]).
Proof. apply (shouldLabelFloat_iff two_files [fileA; fileB]). reflexivity. Defined.

(** ** Small facts about states *)

Lemma with_sets_id (w : World) : with_sets (sets w) w = w.
Proof. by destruct w. Qed.

Lemma State_eta (st : State) : {| this := this st; world := world st |} = st.
Proof. by destruct st. Qed.

Lemma emissions_app (s : SubjectRef) (cs cs' : list Call) :
  emissions s (cs ++ cs') =
  if isStopped s cs then emissions s cs else emissions s cs + emissions s cs'.
Proof.
  induction cs as [| c cs IH]; [done |].
  unfold isStopped in *. cbn. destruct (decide (c = Subject_complete s)) as [-> | Hne].
  - rewrite bool_decide_eq_true_2; [done | apply elem_of_cons; tauto].
  - rewrite IH. case_bool_decide as Hin.
    + rewrite bool_decide_eq_true_2; [done | apply elem_of_cons; tauto].
    + rewrite bool_decide_eq_false_2; [lia |].
      rewrite elem_of_cons. intros [? | ?]; done.
Qed.

(** ** The loop of [onFilesAdded] *)

Lemma for_in_frame (selected : FileCollection) (st : State) :
  exists c ss,
    for_in selected st = (c, {| this := this st; world := with_sets ss (world st) |})
    ∧ length ss = length (sets (world st))
    ∧ (Forall NoDup (sets (world st)) -> Forall NoDup ss).
Proof.
  revert st. induction selected as [| [key file] rest IH]; intros st.
  - exists (Normal ()), (sets (world st)). cbn.
    by rewrite with_sets_id, State_eta.
  - cbn. unfold mbind, M_bind. cbn.
    destruct (negb (isNaN (parseInt10 key))); cbn.
    + unfold_M. destruct (sets (world st) !! files (this st)) as [s |] eqn:Hs; cbn.
      * edestruct IH as (c & ss & -> & Hlen & Hnd). cbn in *.
        exists c, ss. split_and!; [done | by rewrite Hlen, length_insert |].
        intros Hall. apply Hnd.
        apply Forall_insert; [done |].
        apply Set_add_NoDup. eapply Forall_lookup_1; eauto.
      * exists (Throw DanglingRef), (sets (world st)).
        by rewrite with_sets_id, State_eta.
    + apply IH.
Qed.

Lemma added_files_cons (key : JsString) (file : File) (rest : FileCollection) :
  added_files ((key, file) :: rest) =
  if numeric_key key then file :: added_files rest else added_files rest.
Proof.
  unfold added_files. destruct (numeric_key key) eqn:Hkey.
  - by rewrite filter_cons_True.
  - rewrite filter_cons_False; [done | cbn; congruence].
Qed.

Lemma for_in_spec (selected : FileCollection) (st : State) (s : JsSet) :
  selection st = Some s ->
  for_in selected st =
    (Normal (),
     {| this := this st;
        world := with_sets (<[files (this st) := Set_add_all (added_files selected) s]>
                              (sets (world st))) (world st) |}).
Proof.
  unfold selection. revert st s.
  induction selected as [| [key file] rest IH]; intros st s Hs.
  - cbn. by rewrite list_insert_id, with_sets_id, State_eta.
  - rewrite added_files_cons. cbn. unfold mbind, M_bind. cbn.
    fold (numeric_key key). destruct (numeric_key key) eqn:Hkey; cbn.
    + unfold_M. rewrite Hs. cbn.
      rewrite (IH _ (Set_add file s)); cbn.
      * by rewrite list_insert_insert_eq.
      * apply list_lookup_insert_eq. by eapply lookup_lt_Some.
    + by apply IH.
Qed.

(** ** Well-formedness is an invariant *)

Lemma wf_intro (c : Component) (w : World) :
  files c < length (sets w) ->
  Forall (fun o => MyFileListInput.files o < length (sets w)) (wrappers w) ->
  Forall NoDup (sets w) ->
  wf {| this := c; world := w |}.
Proof. by constructor. Qed.

Lemma wf_store (st : State) (r : SetRef) (s : JsSet) :
  wf st -> NoDup s ->
  wf {| this := this st; world := with_sets (<[r := s]> (sets (world st))) (world st) |}.
Proof.
  intros [Hf Hw Hs] Hnd. apply wf_intro; cbn; rewrite ?length_insert; try done.
  destruct (decide (r < length (sets (world st)))).
  - by apply Forall_insert.
  - rewrite list_insert_ge; [done | lia].
Qed.

Lemma wf_selection (st : State) :
  wf st -> exists s, selection st = Some s ∧ NoDup s.
Proof.
  intros [Hf _ Hs]. apply lookup_lt_is_Some in Hf as [s Hsel].
  exists s. split; [done |]. eapply Forall_lookup_1; eauto.
Qed.

Lemma wf_new_Set (st : State) (s : JsSet) :
  wf st -> NoDup s ->
  wf {| this := this st; world := with_sets (sets (world st) ++ [s]) (world st) |}.
Proof.
  intros [Hf Hw Hs] Hnd. apply wf_intro; cbn; rewrite ?length_app; cbn.
  - lia.
  - eapply list.Forall_impl; [exact Hw |]. cbn. intros; lia.
  - apply Forall_app. split; [done |]. by apply Forall_singleton.
Qed.

Lemma wf_new_wrapper (st : State) (fs : SetRef) :
  wf st -> fs < length (sets (world st)) ->
  wf {| this := this st;
        world := with_wrappers (wrappers (world st) ++ [MyFileListInput.new fs]) (world st) |}.
Proof.
  intros [Hf Hw Hs] Hfs. apply wf_intro; cbn; try done.
  apply Forall_app. split; [done |]. by apply Forall_singleton.
Qed.

Lemma wf_invoke (st : State) (m : Method) :
  wf st -> possible st (Do m) -> wf (invoke m st).2.
Proof.
  intros Hwf Hpos. pose proof Hwf as [Hf Hw Hs].
  destruct m; cbn in Hpos.
  all: try (unfold_M; rewrite ?State_eta; done).
  - (* get value *)
    unfold_M. by apply wf_new_wrapper.
  - (* set value *)
    unfold_M. apply lookup_lt_is_Some in Hpos as [o Ho].
    rewrite Ho. cbn.
    assert (MyFileListInput.files o < length (sets (world st))) as Hlt
      by (eapply (Forall_lookup_1 _ _ _ _ Hw); eauto).
    destruct (_onChange (this st)); cbn; apply wf_intro; cbn; done.
  - (* get empty *)
    unfold_M. destruct (sets (world st) !! files (this st)); cbn;
      by rewrite ?State_eta.
  - (* shouldLabelFloat *)
    unfold_M. destruct (focused (this st)); cbn; [by rewrite ?State_eta |].
    destruct (sets (world st) !! files (this st)); cbn; by rewrite ?State_eta.
  - (* onFilesAdded *)
    cbn [invoke]. unfold onFilesAdded, mbind, M_bind.
    destruct (for_in_frame selected st) as (c & ss & -> & Hlen & Hnd).
    assert (wf {| this := this st; world := with_sets ss (world st) |}) as Hwf'.
    { apply wf_intro; cbn; rewrite ?Hlen; auto. }
    destruct Hwf' as [? ? ?]. cbn in *.
    destruct c; cbn; [| by apply wf_intro].
    unfold_M. destruct (_onChange (this st)); cbn; by apply wf_intro.
  - (* removeFile *)
    unfold_M. destruct (wf_selection st Hwf) as (s & Hsel & Hnd).
    unfold selection in Hsel. rewrite Hsel. cbn.
    pose proof (wf_store st (files (this st)) _ Hwf (Set_delete_NoDup file s Hnd)) as Hwf'.
    destruct Hwf' as [? ? ?]. cbn in *.
    destruct (_onChange (this st)); cbn; by apply wf_intro.
Qed.

Lemma wf_constructor_world (st : State) (ngc : option NgControl) (el input : Element) :
  wf st ->
  wf {| this := this st; world := world (constructor ngc el input (world st)) |}.
Proof.
  intros [Hf Hw Hs]. apply wf_intro.
  all: destruct ngc; cbn; rewrite ?length_app; cbn.
  all: try lia.
  all: try (eapply list.Forall_impl; [exact Hw |]; cbn; intros; lia).
  all: apply Forall_app; split; [done |]; apply Forall_singleton, NoDup_nil_2.
Qed.

Lemma wf_step (st : State) (a : Action) :
  wf st -> possible st a -> wf (step a st).
Proof.
  intros Hwf Hpos. destruct a as [m | fs | fs | r f | r f | ngc el input].
  - by apply wf_invoke.
  - unfold_M. apply wf_new_Set; [done | apply Set_of_NoDup].
  - unfold_M. by apply wf_new_wrapper.
  - cbn. destruct (sets (world st) !! r) as [s |] eqn:Hr; [| done].
    unfold_M. apply wf_store; [done |]. apply Set_add_NoDup.
    destruct Hwf as [_ _ Hs]. eapply Forall_lookup_1; eauto.
  - cbn. destruct (sets (world st) !! r) as [s |] eqn:Hr; [| done].
    unfold_M. apply wf_store; [done |]. apply Set_delete_NoDup.
    destruct Hwf as [_ _ Hs]. eapply Forall_lookup_1; eauto.
  - by apply wf_constructor_world.
Qed.

Lemma page_wf (w : World) :
  page w ->
  Forall (fun o => MyFileListInput.files o < length (sets w)) (wrappers w)
  ∧ Forall NoDup (sets w).
Proof.
  induction 1 as [| w fs _ [IHw IHs] | w fs _ [IHw IHs] Hfs | w ngc el input _ [IHw IHs]].
  - split; constructor.
  - cbn. rewrite length_app. cbn. split.
    + eapply list.Forall_impl; [exact IHw |]. cbn. intros; lia.
    + apply Forall_app. split; [done |]. apply Forall_singleton, Set_of_NoDup.
  - cbn. split; [| done].
    apply Forall_app. split; [done |]. by apply Forall_singleton.
  - destruct ngc; cbn; rewrite length_app; cbn.
    all: split;
      [ eapply list.Forall_impl; [exact IHw |]; cbn; intros; lia
      | apply Forall_app; split; [done |]; apply Forall_singleton, NoDup_nil_2 ].
Qed.

Lemma reachable_wf (st : State) : reachable st -> wf st.
Proof.
  induction 1 as [w ngc el input Hpage | st a _ IH Hpos].
  - destruct (page_wf w Hpage) as [Hw Hs]. apply wf_intro.
    all: destruct ngc; cbn; rewrite ?length_app; cbn.
    all: try lia.
    all: try (eapply list.Forall_impl; [exact Hw |]; cbn; intros; lia).
    all: apply Forall_app; split; [done |]; apply Forall_singleton, NoDup_nil_2.
  - by apply wf_step.
Qed.

(** ** Removing a file *)

(** C2: [removeFile(f)] takes [f] out of the selection when it is there
    and leaves the selection as it was when it is not; either way it calls
    [stateChanges.next()] and then the registered change callback. *)
Theorem removeFile_removes_and_notifies
    (st : State) (file : File) (fn : Callback) (s : JsSet) :
  selection st = Some s ->
  NoDup s ->
  _onChange (this st) = Some fn ->
  let st' := (removeFile file st).2 in
  (removeFile file st).1 = Normal ()
  ∧ this st' = this st
  ∧ selection st' = Some (filter (fun g => g ≠ file) s)
  ∧ (file ∉ filter (fun g => g ≠ file) s)
  ∧ (file ∉ s -> selection st' = Some s)
  ∧ calls (world st') =
      (calls (world st) ++
       [Subject_next (stateChanges (this st)); Invoke fn (files (this st))]).
Proof.
  intros Hsel Hnd Hfn. pose proof (selection_lt st s Hsel) as Hlt.
  unfold selection in *. unfold_M. rewrite Hsel. cbn. rewrite Hfn. cbn.
  rewrite list_lookup_insert_eq by done.
  rewrite (Set_delete_filter file s Hnd).
  split_and!; try done.
  - rewrite list_elem_of_filter. tauto.
  - intros Habs. by rewrite filter_ne_absent.
  - by rewrite <- app_assoc.
Qed.

Lemma removeFile_removes_and_notifies_witness :
  let st' := (removeFile fileA two_files).2 in
  (removeFile fileA two_files).1 = Normal ()
  ∧ this st' = this two_files
  ∧ selection st' = Some (filter (fun g => g ≠ fileA) [fileA; fileB])
  ∧ (fileA ∉ filter (fun g => g ≠ fileA) [fileA; fileB])
  ∧ (fileA ∉ [fileA; fileB] -> selection st' = Some [fileA; fileB])
  ∧ calls (world st') =
      (calls (world two_files) ++
       [Subject_next (stateChanges (this two_files));
        Invoke 0 (files (this two_files))]).
Proof.
  apply (removeFile_removes_and_notifies two_files fileA 0 [fileA; fileB]).
  - reflexivity.
  - apply (bool_decide_unpack (NoDup [fileA; fileB])). vm_compute. exact I.
  - reflexivity.
Defined.

(** ** Notifications of the mutating methods *)

Lemma mutator_log (st : State) (m : Method) (s : JsSet) :
  selection st = Some s ->
  is_mutator st m ->
  exists st1,
    this st1 = with_files (files (this st1)) (this st)
    ∧ calls (world st1) = calls (world st)
    ∧ invoke m st =
        (stateChanges_next;; call_onChange) st1.
Proof.
  intros Hsel Hmut. destruct m; cbn in Hmut; try done.
  - apply lookup_lt_is_Some in Hmut as [o Ho].
    exists {| this := with_files (MyFileListInput.files o) (this st); world := world st |}.
    split_and!; [done | done |].
    unfold_M. by rewrite Ho.
  - exists {| this := this st;
              world := with_sets (<[files (this st) := Set_add_all (added_files selected) s]>
                                    (sets (world st))) (world st) |}.
    split_and!; [by destruct st as [[] ?] | done |].
    cbn [invoke]. unfold onFilesAdded, mbind at 1, M_bind at 1.
    by rewrite (for_in_spec selected st s Hsel).
  - exists {| this := this st;
              world := with_sets (<[files (this st) := (Set_delete file s).1]>
                                    (sets (world st))) (world st) |}.
    split_and!; [by destruct st as [[] ?] | done |].
    unfold_M. unfold selection in Hsel. by rewrite Hsel.
Qed.

(** C3: one call of the value setter, of [onFilesAdded] or of [removeFile]
    makes exactly one [stateChanges.next()] call and exactly one call of
    the registered change callback, in that order; on a subject that has
    not been completed a subscriber sees exactly one more notification. *)
Theorem mutators_notify_once (st : State) (m : Method) (fn : Callback) (s : JsSet) :
  selection st = Some s ->
  _onChange (this st) = Some fn ->
  is_mutator st m ->
  let st' := (invoke m st).2 in
  let sc := stateChanges (this st) in
  (invoke m st).1 = Normal ()
  ∧ exists new,
      calls (world st') = calls (world st) ++ new
      ∧ new = [Subject_next sc; Invoke fn (files (this st'))]
      ∧ count_call (Subject_next sc) new = 1
      ∧ invocations fn new = 1
      ∧ (isStopped sc (calls (world st)) = false ->
         emissions sc (calls (world st')) = S (emissions sc (calls (world st)))).
Proof.
  intros Hsel Hfn Hmut.
  destruct (mutator_log st m s Hsel Hmut) as (st1 & Hthis & Hcalls & ->).
  assert (_onChange (this st1) = Some fn) as Hfn1 by (by rewrite Hthis).
  assert (stateChanges (this st1) = stateChanges (this st)) as Hsc by (by rewrite Hthis).
  unfold_M. rewrite Hfn1. cbn. rewrite Hsc, Hcalls.
  split; [done |]. eexists. split_and!.
  - by rewrite <- app_assoc.
  - done.
  - unfold count_call. cbn. rewrite decide_True by done. done.
  - unfold invocations. cbn. rewrite bool_decide_eq_true_2 by done. done.
  - intros Hlive. rewrite <- app_assoc, emissions_app, Hlive. cbn.
    rewrite decide_False by done. rewrite decide_True by done. cbn.
    rewrite decide_False by done. rewrite decide_False by done. lia.
Qed.

Lemma mutators_notify_once_witness :
  let st' := (invoke (m_removeFile fileA) two_files).2 in
  let sc := stateChanges (this two_files) in
  (invoke (m_removeFile fileA) two_files).1 = Normal ()
  ∧ exists new,
      calls (world st') = calls (world two_files) ++ new
      ∧ new = [Subject_next sc; Invoke 0 (files (this st'))]
      ∧ count_call (Subject_next sc) new = 1
      ∧ invocations 0 new = 1
      ∧ (isStopped sc (calls (world two_files)) = false ->
         emissions sc (calls (world st')) = S (emissions sc (calls (world two_files)))).
Proof.
  apply (mutators_notify_once two_files (m_removeFile fileA) 0 [fileA; fileB]).
  - reflexivity.
  - reflexivity.
  - exact I.
Defined.

(** ** Calling a mutating method before a callback is registered *)

(** Once a callback is registered, no method raises in a well-formed
    state. *)
Lemma methods_return_normally (st : State) (m : Method) (fn : Callback) :
  wf st ->
  _onChange (this st) = Some fn ->
  possible st (Do m) ->
  (invoke m st).1 = Normal ().
Proof.
  intros Hwf Hfn Hpos. destruct (wf_selection st Hwf) as (s & Hsel & _).
  assert (is_mutator st m -> (invoke m st).1 = Normal ()) as Hmut.
  { intros Hm. destruct (mutator_log st m s Hsel Hm) as (st1 & Hthis & _ & ->).
    assert (_onChange (this st1) = Some fn) as Hfn1 by (by rewrite Hthis).
    unfold_M. by rewrite Hfn1. }
  unfold selection in Hsel.
  destruct m; try (apply Hmut; exact Hpos); try (apply Hmut; exact I).
  all: unfold_M; rewrite ?Hsel; try done.
  destruct (focused (this st)); cbn; by rewrite ?Hsel.
Qed.

(** C5: in a state where [registerOnChange] has not stored a callback, the
    value setter, [onFilesAdded] and [removeFile] raise a [TypeError]:
    [_onChange] is declared without an initialiser and is called
    unguarded. *)
Theorem mutators_throw_without_callback (st : State) (m : Method) (s : JsSet) :
  selection st = Some s ->
  _onChange (this st) = None ->
  is_mutator st m ->
  (invoke m st).1 = Throw (TypeError "this._onChange is not a function").
Proof.
  intros Hsel Hfn Hmut.
  destruct (mutator_log st m s Hsel Hmut) as (st1 & Hthis & Hcalls & ->).
  assert (_onChange (this st1) = None) as Hfn1 by (by rewrite Hthis).
  unfold_M. by rewrite Hfn1.
Qed.

Lemma mutators_throw_without_callback_witness :
  (invoke (m_removeFile fileA) standalone).1 =
  Throw (TypeError "this._onChange is not a function").
Proof.
  apply (mutators_throw_without_callback standalone (m_removeFile fileA) []).
  - reflexivity.
  - reflexivity.
  - exact I.
Defined.

(** ** Which keys [onFilesAdded] lets through *)

Lemma digit_not_white_space (c : N) :
  is_decimal_digit c = true ->
  is_StrWhiteSpaceChar c = false ∧ (c =? 45)%N = false ∧ (c =? 43)%N = false.
Proof.
  unfold is_decimal_digit, is_StrWhiteSpaceChar.
  rewrite andb_true_iff, !N.leb_le. intros [Hlo Hhi].
  repeat match goal with
  | |- context [(?a <=? ?b)%N] =>
      destruct (N.leb_spec a b); try lia
  | |- context [(?a =? ?b)%N] =>
      destruct (N.eqb_spec a b); try lia
  end.
Qed.

Lemma index_like_numeric (key : JsString) :
  index_like key = true -> isNaN (parseInt10 key) = false.
Proof.
  destruct key as [| c r]; [done |]. cbn [index_like forallb].
  rewrite andb_true_iff. intros [Hc _].
  destruct (digit_not_white_space c Hc) as (Hws & Hminus & Hplus).
  unfold parseInt10. cbn [skip_white_space]. rewrite Hws, Hminus, Hplus.
  cbn [digit_prefix]. by rewrite Hc.
Qed.

Lemma elem_of_added_files (g : File) (selected : FileCollection) :
  g ∈ added_files selected ↔
  exists key, (key, g) ∈ selected ∧ isNaN (parseInt10 key) = false.
Proof.
  unfold added_files. rewrite list_elem_of_fmap. split.
  - intros ([key g'] & -> & [Hkey Hin]%list_elem_of_filter). cbn in *.
    exists key. split; [done |]. unfold numeric_key in Hkey.
    by destruct (isNaN (parseInt10 key)).
  - intros (key & Hin & Hkey). exists (key, g). split; [done |].
    apply list_elem_of_filter. split; [| done].
    cbn. unfold numeric_key. by rewrite Hkey.
Qed.

(** On any map from string keys to files, [onFilesAdded] adds exactly
    the files stored under the keys for which [parseInt(key, 10)] is a
    number, then calls [stateChanges.next()] and the change callback. *)
Lemma onFilesAdded_adds_parseInt_keys
    (st : State) (selected : FileCollection) (fn : Callback) (s : JsSet) :
  selection st = Some s ->
  _onChange (this st) = Some fn ->
  let st' := (onFilesAdded selected st).2 in
  (onFilesAdded selected st).1 = Normal ()
  ∧ this st' = this st
  ∧ selection st' = Some (Set_add_all (added_files selected) s)
  ∧ (forall g, g ∈ Set_add_all (added_files selected) s ↔
       g ∈ s ∨ exists key, (key, g) ∈ selected ∧ isNaN (parseInt10 key) = false)
  ∧ calls (world st') =
      (calls (world st) ++
       [Subject_next (stateChanges (this st)); Invoke fn (files (this st))])
  ∧ (forall key, index_like key = true -> isNaN (parseInt10 key) = false)
  ∧ isNaN (parseInt10 (code_units "length")) = true
  ∧ isNaN (parseInt10 (code_units "item")) = true.
Proof.
  intros Hsel Hfn. pose proof (selection_lt st s Hsel) as Hlt.
  assert (onFilesAdded selected st =
    (Normal (),
     {| this := this st;
        world :=
          with_calls
            (calls (world st) ++
             [Subject_next (stateChanges (this st)); Invoke fn (files (this st))])
            (with_sets (<[files (this st) := Set_add_all (added_files selected) s]>
                          (sets (world st))) (world st)) |})) as ->.
  { unfold onFilesAdded, mbind at 1, M_bind at 1.
    rewrite (for_in_spec selected st s Hsel).
    unfold_M. rewrite Hfn. cbn. by rewrite <- app_assoc. }
  unfold selection. cbn [snd fst this world sets calls with_calls with_sets].
  rewrite list_lookup_insert_eq by done.
  split_and!; try done.
  - intros g. rewrite elem_of_Set_add_all, elem_of_added_files. tauto.
  - apply index_like_numeric.
Qed.

(** ** What a method leaves alone *)

Lemma extends_refl {A} (l : list A) : exists new, l = l ++ new.
Proof. exists []. by rewrite app_nil_r. Qed.

Lemma extends_1 {A} (l : list A) (x : A) : exists new, l ++ [x] = l ++ new.
Proof. by exists [x]. Qed.

Lemma extends_2 {A} (l : list A) (x y : A) :
  exists new, (l ++ [x]) ++ [y] = l ++ new.
Proof. exists [x; y]. by rewrite <- app_assoc. Qed.

Lemma invoke_frame (m : Method) (st : State) :
  let st' := (invoke m st).2 in
  nextId (world st') = nextId (world st)
  ∧ (exists new, calls (world st') = calls (world st) ++ new)
  ∧ (exists new, wrappers (world st') = wrappers (world st) ++ new)
  ∧ length (sets (world st')) = length (sets (world st))
  ∧ ((forall val, m ≠ m_set_value val) -> files (this st') = files (this st)).
Proof.
  destruct m.
  12: {
    cbn [invoke]. unfold onFilesAdded, mbind, M_bind.
    destruct (for_in_frame selected st) as (c & ss & -> & Hlen & _).
    destruct c; cbn; unfold_M; [destruct (_onChange (this st)) |]; cbn.
    all: split_and!; auto using @extends_refl, @extends_1, @extends_2. }
  all: unfold_M.
  all: repeat case_match; simplify_eq/=.
  all: split_and!; rewrite ?length_insert;
    auto using @extends_refl, @extends_1, @extends_2.
  all: intros Hne; by destruct (Hne val).
Qed.

Lemma Number_increment_ge (n : N) : (n <= Number_increment n)%N.
Proof.
  unfold Number_increment.
  destruct (n <? 2 ^ 53)%N; [lia |].
  destruct (n <? 2 ^ 54)%N; [| lia].
  destruct (N.even (n / 2)); lia.
Qed.

Lemma Number_increment_exact (n : N) :
  (n < 2 ^ 53)%N -> Number_increment n = (n + 1)%N.
Proof.
  intros Hn. unfold Number_increment.
  by rewrite (proj2 (N.ltb_lt n (2 ^ 53)) Hn).
Qed.

Lemma step_frame (a : Action) (st : State) :
  let st' := step a st in
  (nextId (world st) <= nextId (world st'))%N
  ∧ (exists new, calls (world st') = calls (world st) ++ new)
  ∧ (exists new, wrappers (world st') = wrappers (world st) ++ new)
  ∧ ((forall val, a ≠ Do (m_set_value val)) -> files (this st') = files (this st)).
Proof.
  destruct a as [m | fs | fs | r f | r f | ngc el input].
  - destruct (invoke_frame m st) as (Hid & Hcalls & Hwr & _ & Hfiles).
    cbn [step]. split_and!; [lia | done | done |].
    intros Hne. apply Hfiles. intros val ->. by apply (Hne val).
  - unfold_M. split_and!; auto using @extends_refl, @extends_1; try lia.
  - unfold_M. split_and!; auto using @extends_refl, @extends_1; try lia.
  - cbn. destruct (sets (world st) !! r); unfold_M.
    all: split_and!; auto using @extends_refl, @extends_1; try lia.
  - cbn. destruct (sets (world st) !! r); unfold_M.
    all: split_and!; auto using @extends_refl, @extends_1; try lia.
  - destruct ngc; cbn.
    all: split_and!;
      auto using @extends_refl, @extends_1, @extends_2, Number_increment_ge.
Qed.

Lemma run_snoc (acts : list Action) (a : Action) (st : State) :
  run (acts ++ [a]) st = step a (run acts st).
Proof. unfold run. by rewrite foldl_app. Qed.

Lemma run_frame (acts : list Action) (st : State) :
  let st' := run acts st in
  (nextId (world st) <= nextId (world st'))%N
  ∧ (exists new, calls (world st') = calls (world st) ++ new)
  ∧ (exists new, wrappers (world st') = wrappers (world st) ++ new)
  ∧ (Forall (fun a => forall val, a ≠ Do (m_set_value val)) acts ->
     files (this st') = files (this st)).
Proof.
  induction acts as [| a acts IH] using rev_ind.
  - cbn. split_and!; auto using @extends_refl; try lia.
  - rewrite run_snoc. cbn zeta in *.
    destruct IH as (Hid & [c Hc] & [w Hw] & Hfiles).
    destruct (step_frame a (run acts st)) as (Hid' & [c' Hc'] & [w' Hw'] & Hfiles').
    split_and!.
    + lia.
    + exists (c ++ c'). by rewrite Hc', Hc, app_assoc.
    + exists (w ++ w'). by rewrite Hw', Hw, app_assoc.
    + intros [Hacts Ha]%Forall_app. rewrite Forall_singleton in Ha.
      rewrite (Hfiles' Ha). by apply Hfiles.
Qed.

(** ** Teardown *)

(** C9: [ngOnDestroy] completes the [stateChanges] subject and calls
    [stopMonitoring] on the component's root element; from then on no
    call, and no run of the component or of the page, makes a subscriber
    of [stateChanges] see another notification. *)
Theorem ngOnDestroy_completes_and_stops (st : State) :
  let st' := (ngOnDestroy st).2 in
  let sc := stateChanges (this st) in
  (ngOnDestroy st).1 = Normal ()
  ∧ this st' = this st
  ∧ calls (world st') =
      (calls (world st) ++ [Subject_complete sc; stopMonitoring (elRef (this st))])
  ∧ isStopped sc (calls (world st')) = true
  ∧ (forall later,
       emissions sc (calls (world st') ++ later) = emissions sc (calls (world st')))
  ∧ (forall acts,
       emissions sc (calls (world (run acts st'))) = emissions sc (calls (world st'))).
Proof.
  cbn zeta.
  assert (ngOnDestroy st =
    (Normal (),
     {| this := this st;
        world :=
          with_calls
            (calls (world st) ++
             [Subject_complete (stateChanges (this st)); stopMonitoring (elRef (this st))])
            (world st) |})) as ->.
  { unfold_M. by rewrite <- app_assoc. }
  cbn [fst snd this world calls with_calls].
  assert (isStopped (stateChanges (this st))
            (calls (world st) ++
             [Subject_complete (stateChanges (this st)); stopMonitoring (elRef (this st))])
          = true) as Hstop.
  { unfold isStopped. apply bool_decide_eq_true_2.
    rewrite elem_of_app, elem_of_cons. tauto. }
  split_and!; try done.
  - intros later. by rewrite emissions_app, Hstop.
  - intros acts.
    match goal with |- context [run acts ?s] =>
      destruct (run_frame acts s) as (_ & [new ->] & _)
    end.
    cbn [this world calls with_calls]. by rewrite emissions_app, Hstop.
Qed.

(** ** The selection is a set *)

Lemma onFilesAdded_selection (st : State) (selected : FileCollection) (s : JsSet) :
  selection st = Some s ->
  selection (onFilesAdded selected st).2 = Some (Set_add_all (added_files selected) s).
Proof.
  intros Hsel. pose proof (selection_lt st s Hsel) as Hlt.
  unfold onFilesAdded, mbind at 1, M_bind at 1.
  rewrite (for_in_spec selected st s Hsel).
  unfold_M. destruct (_onChange (this st)); unfold selection; cbn.
  all: by apply list_lookup_insert_eq.
Qed.

(** C7: in every reachable state the selection has no repeated member,
    and an [onFilesAdded] that brings only files already selected leaves
    the selection as it was. *)
Theorem selection_never_has_duplicates (st : State) :
  reachable st ->
  exists s,
    selection st = Some s
    ∧ NoDup s
    ∧ forall selected,
        (forall f, f ∈ added_files selected -> f ∈ s) ->
        selection (onFilesAdded selected st).2 = Some s.
Proof.
  intros Hreach. destruct (wf_selection st (reachable_wf st Hreach)) as (s & Hsel & Hnd).
  exists s. split_and!; [done | done |].
  intros selected Hall. rewrite (onFilesAdded_selection st selected s Hsel).
  f_equal. apply Set_add_all_present. by apply list.Forall_forall.
Qed.

Lemma selection_never_has_duplicates_witness :
  exists s,
    selection two_files = Some s
    ∧ NoDup s
    ∧ forall selected,
        (forall f, f ∈ added_files selected -> f ∈ s) ->
        selection (onFilesAdded selected two_files).2 = Some s.
Proof.
  apply (selection_never_has_duplicates two_files).
  unfold two_files, wrapper_ready, in_form, run. cbn [foldl].
  repeat (apply reachable_step; [| first [exact I | vm_compute; lia]]).
  apply reachable_constructor, page_init.
Defined.

(** ** [onFilesAdded] on a file picker's collection *)







(** The two failing calls of the theorem above, on an instance used
    outside a form and on one whose [files] is not a [Set]. *)
Example onFilesAdded_fails_after_adding :
  onFilesAdded [(code_units "0", fileA)] standalone
  = (Throw (TypeError "this._onChange is not a function"),
     {| this := this standalone;
        world := with_calls (calls (world standalone) ++ [Subject_next 0])
                   (with_sets [[fileA]] (world standalone)) |}).
Proof. reflexivity. Qed.

Example onFilesAdded_fails_before_notifying :
  selection no_set = None
  ∧ onFilesAdded [(code_units "0", fileA)] no_set = (Throw DanglingRef, no_set).
Proof. split; reflexivity. Qed.

(** ** Boolean coercion in the [required] and [disabled] setters *)

Lemma pretty_N_char_not_false (d : N) (rest : string) :
  String (pretty_N_char d) rest ≠ "false".
Proof. unfold pretty_N_char. repeat case_match; discriminate. Qed.

Lemma pretty_N_go_head (x : N) (s : string) :
  (0 < x)%N ->
  exists d rest, pretty_N_go x s = String (pretty_N_char d) rest.
Proof.
  revert s. induction (N.lt_wf_0 x) as [x _ IH]. intros s Hx.
  rewrite pretty_N_go_step by done.
  destruct (decide (x `div` 10 = 0)%N) as [-> | Hne].
  - rewrite pretty_N_go_0. eauto.
  - apply IH.
    + apply N.div_lt; [done | reflexivity].
    + by apply N.neq_0_lt_0.
Qed.

Lemma pretty_Z_not_false (n : Z) : pretty n ≠ "false".
Proof.
  destruct n as [| p | p]; [done | | done].
  change (pretty (Z.pos p)) with (pretty_N_go (N.pos p) "").
  destruct (pretty_N_go_head (N.pos p) "") as (d & rest & ->); [lia |].
  apply pretty_N_char_not_false.
Qed.

Lemma coerceBooleanProperty_false (v : JsValue) :
  coerceBooleanProperty v = false ↔
  v = JsUndefined ∨ v = JsNull ∨ v = JsBoolean false ∨ v = JsStr "false".
Proof.
  split.
  - destruct v as [| | [] | n | | s]; cbn; try done; auto.
    + intros Hn%negb_false_iff%String.eqb_eq. by apply pretty_Z_not_false in Hn.
    + intros Hs%negb_false_iff%String.eqb_eq. subst. auto.
  - intros [-> | [-> | [-> | ->]]]; reflexivity.
Qed.

(** C4, as amended: both setters store [false] for [undefined], [null],
    the boolean [false] and the string [false], and [true] for every other
    value; so the string [true], the number 1, and also the empty string
    and the number 0 are stored as [true], and [undefined] as [false].
    Each setter then calls [stateChanges.next()]. *)
Theorem setters_coerce (st : State) (v : JsValue) :
  let r := _required (this (set_required v st).2) in
  let d := _disabled (this (set_disabled v st).2) in
  (set_required v st).1 = Normal ()
  ∧ (set_disabled v st).1 = Normal ()
  ∧ r = d
  ∧ (r = false ↔
     v = JsUndefined ∨ v = JsNull ∨ v = JsBoolean false ∨ v = JsStr "false")
  ∧ (v ∈ [JsStr "true"; JsNumber 1; JsStr ""; JsNumber 0] -> r = true)
  ∧ calls (world (set_required v st).2) =
      (calls (world st) ++ [Subject_next (stateChanges (this st))])
  ∧ calls (world (set_disabled v st).2) =
      (calls (world st) ++ [Subject_next (stateChanges (this st))]).
Proof.
  unfold_M. split_and!; try done.
  - apply coerceBooleanProperty_false.
  - rewrite !elem_of_cons, elem_of_nil.
    intros [-> | [-> | [-> | [-> | []]]]]; reflexivity.
Qed.

(** C4, as stated, fails: the empty string is stored as [true], because
    an attribute that is merely present counts as set. *)
Lemma setters_store_true_for_empty_string :
  truthy (JsStr "") = false
  ∧ _required (this (set_required (JsStr "") standalone).2) = true
  ∧ _disabled (this (set_disabled (JsStr "") standalone).2) = true
  ∧ ¬ stored_by_truthiness (JsStr "").
Proof.
  split_and!; [reflexivity | reflexivity | reflexivity |].
  intros Hspec. destruct (Hspec standalone) as [_ Hfalsy].
  destruct Hfalsy as [Hr _]; [apply elem_of_cons; by left |].
  discriminate Hr.
Qed.

(** ** Instance ids *)

Lemma session_cons (ngc : option NgControl) (el input : Element)
    (acts : list Action) (rest : list (Args * list Action)) (w : World) :
  (session (((ngc, el, input), acts) :: rest) w).1 =
  this (constructor ngc el input w)
  :: (session rest (world (run acts (constructor ngc el input w)))).1.
Proof. cbn [session]. by destruct (session rest _). Qed.

Lemma constructor_nextId (ngc : option NgControl) (el input : Element) (w : World) :
  nextId (world (constructor ngc el input w)) = Number_increment (nextId w).
Proof. by destruct ngc. Qed.

Lemma session_final (ngc : option NgControl) (el input : Element)
    (acts : list Action) (rest : list (Args * list Action)) (w : World) :
  (session (((ngc, el, input), acts) :: rest) w).2 =
  (session rest (world (run acts (constructor ngc el input w)))).2.
Proof. cbn [session]. by destruct (session rest _). Qed.

Lemma session_length (plan : list (Args * list Action)) (w : World) :
  length (session plan w).1 = length plan.
Proof.
  revert w. induction plan as [| [[[ngc el] input] acts] rest IH]; intros w; [done |].
  rewrite session_cons. cbn. by rewrite IH.
Qed.

Lemma session_nextId (plan : list (Args * list Action)) (w : World) :
  (nextId w <= nextId (session plan w).2)%N.
Proof.
  revert w. induction plan as [| [[[ngc el] input] acts] rest IH]; intros w; [done |].
  rewrite session_final.
  etrans; [| apply IH].
  destruct (run_frame acts (constructor ngc el input w)) as (Hmono & _).
  etrans; [| exact Hmono].
  rewrite constructor_nextId. apply Number_increment_ge.
Qed.

Lemma has_suffix_inj (n n' : N) (c c' : Component) :
  has_suffix n c -> has_suffix n' c' -> id c = id c' -> n = n'.
Proof.
  unfold has_suffix. intros -> -> Heq.
  apply String.app_inj in Heq. by apply pretty_N_inj in Heq.
Qed.

Lemma session_suffixes (plan : list (Args * list Action)) (w : World) :
  (nextId (session plan w).2 < 2 ^ 53)%N ->
  exists ns : list N,
    Forall2 has_suffix ns (session plan w).1
    ∧ Forall (N.le (nextId w)) ns
    ∧ (forall n, ns !! 0 = Some n -> n = nextId w)
    ∧ (forall i j ni nj, i < j -> ns !! i = Some ni -> ns !! j = Some nj -> (ni < nj)%N)
    ∧ NoDup (id <$> (session plan w).1).
Proof.
  revert w. induction plan as [| [[[ngc el] input] acts] rest IH]; intros w Hbound.
  - exists []. cbn. split_and!; [constructor | constructor | done | | constructor].
    intros i j ni nj _ Hi. by rewrite lookup_nil in Hi.
  - rewrite session_final in Hbound. rewrite session_cons.
    set (st := constructor ngc el input w) in *.
    destruct (IH (world (run acts st)) Hbound) as (ns & Hsuf & Hle & _ & Hinc & Hnd).
    assert (nextId w < nextId (world (run acts st)))%N as Hlt.
    { destruct (run_frame acts st) as (Hmono & _).
      pose proof (session_nextId rest (world (run acts st))) as Hfinal.
      pose proof (Number_increment_ge (nextId w)) as Hge.
      subst st. rewrite constructor_nextId in Hmono.
      rewrite Number_increment_exact in Hmono by lia. lia. }
    assert (Forall (N.lt (nextId w)) ns) as Hgt.
    { eapply list.Forall_impl; [exact Hle |]. cbn. intros n Hn. lia. }
    exists (nextId w :: ns). split_and!.
    + constructor; [by destruct ngc | done].
    + constructor; [lia |].
      eapply list.Forall_impl; [exact Hle |]. cbn. intros n Hn. lia.
    + cbn. by intros n [= <-].
    + intros [| i] [| j] ni nj Hij Hi Hj; cbn in *; try lia.
      * injection Hi as <-.
        eapply (Forall_lookup_1 _ _ _ _ Hgt); eauto.
      * eapply (Hinc i j); eauto. lia.
    + rewrite fmap_cons. apply list.NoDup_cons. split; [| done].
      intros (c & Hid & Hc)%list_elem_of_fmap.
      apply list_elem_of_lookup in Hc as [i Hi].
      destruct (Forall2_lookup_r _ _ _ _ _ Hsuf Hi) as (n & Hn & Hsuffix).
      assert (has_suffix (nextId w) (this st)) as Hhead by (subst st; by destruct ngc).
      pose proof (has_suffix_inj _ _ _ _ Hhead Hsuffix Hid) as Heq.
      pose proof (Forall_lookup_1 _ _ _ _ Hgt Hn) as Hgtn. cbn in Hgtn. lia.
Qed.

(** C8: in a page session whose counter stays below 2^53, where a
    JavaScript number still counts, every construction yields an instance
    whose id is the fixed prefix followed by the decimal spelling of a
    number; the first number is the counter's value at the start, the
    numbers increase strictly in the order of construction whatever
    happens in between, and no two instances have the same id. *)
Theorem ids_increase_and_differ (plan : list (Args * list Action)) (w : World) :
  (nextId (session plan w).2 < 2 ^ 53)%N ->
  let instances := (session plan w).1 in
  exists ns : list N,
    Forall2 has_suffix ns instances
    ∧ length instances = length plan
    ∧ (forall n, ns !! 0 = Some n -> n = nextId w)
    ∧ (forall i j ni nj,
         i < j -> ns !! i = Some ni -> ns !! j = Some nj -> (ni < nj)%N)
    ∧ NoDup (id <$> instances)
    ∧ (forall i j ci cj,
         i ≠ j -> instances !! i = Some ci -> instances !! j = Some cj ->
         id ci ≠ id cj).
Proof.
  intros Hbound. cbn zeta.
  destruct (session_suffixes plan w Hbound) as (ns & Hsuf & _ & Hfirst & Hinc & Hnd).
  exists ns. split_and!; try done.
  - apply session_length.
  - intros i j ci cj Hij Hi Hj Heq.
    apply Hij. eapply NoDup_lookup; [exact Hnd | |].
    + rewrite list_lookup_fmap, Hi. reflexivity.
    + rewrite list_lookup_fmap, Hj. cbn. by rewrite Heq.
Qed.

Lemma ids_increase_and_differ_witness :
  let plan :=
    [((Some 0, 0, 1), [Do (m_registerOnChange 0); Page_construct None 4 5]);
     ((None, 2, 3), [])] in
  let instances := (session plan World_init).1 in
  exists ns : list N,
    Forall2 has_suffix ns instances
    ∧ length instances = length plan
    ∧ (forall n, ns !! 0 = Some n -> n = nextId World_init)
    ∧ (forall i j ni nj,
         i < j -> ns !! i = Some ni -> ns !! j = Some nj -> (ni < nj)%N)
    ∧ NoDup (id <$> instances)
    ∧ (forall i j ci cj,
         i ≠ j -> instances !! i = Some ci -> instances !! j = Some cj ->
         id ci ≠ id cj).
Proof.
  apply (ids_increase_and_differ
           [((Some 0, 0, 1), [Do (m_registerOnChange 0); Page_construct None 4 5]);
            ((None, 2, 3), [])]
           World_init).
  reflexivity.
Defined.

(** ** The value is shared, not copied *)

Lemma keeps_files (acts : list Action) :
  existsb reassigns_files acts = false ->
  Forall (fun a => forall val, a ≠ Do (m_set_value val)) acts.
Proof.
  induction acts as [| a acts IH]; [constructor |].
  cbn. intros [Ha Hacts]%orb_false_iff. constructor; [| by apply IH].
  intros val ->. discriminate Ha.
Qed.

Lemma set_value_state (st : State) (val : WrapperRef) (o : MyFileListInput.t) :
  wrappers (world st) !! val = Some o ->
  let st1 := (set_value val st).2 in
  files (this st1) = MyFileListInput.files o
  ∧ sets (world st1) = sets (world st)
  ∧ wrappers (world st1) = wrappers (world st).
Proof. intros Ho. unfold_M. rewrite Ho. cbn. by destruct (_onChange (this st)). Qed.

Lemma get_value_state (st : State) :
  get_value st =
    (Normal (length (wrappers (world st))),
     {| this := this st;
        world := with_wrappers
                   (wrappers (world st) ++ [MyFileListInput.new (files (this st))])
                   (world st) |}).
Proof. reflexivity. Qed.

(** C10: [value = w] stores [w.files] itself, without allocating a set;
    from then on, as long as [value] is not assigned again, every read of
    [value] returns a wrapper at a fresh address whose [files] is that same
    reference, and after any further run the set seen through [w], and
    through a wrapper the getter returned earlier, is the component's
    selection. *)
Theorem value_is_shared
    (st : State) (val : WrapperRef) (o : MyFileListInput.t)
    (acts1 acts2 : list Action) :
  wrappers (world st) !! val = Some o ->
  existsb reassigns_files acts1 = false ->
  existsb reassigns_files acts2 = false ->
  let st1 := (set_value val st).2 in
  let stA := run acts1 st1 in
  let r := length (wrappers (world stA)) in
  let stB := (get_value stA).2 in
  let stC := run acts2 stB in
  files (this st1) = MyFileListInput.files o
  ∧ sets (world st1) = sets (world st)
  ∧ (get_value stA).1 = Normal r
  ∧ wrappers (world stA) !! r = None
  ∧ wrappers (world stB) !! r = Some (MyFileListInput.new (MyFileListInput.files o))
  ∧ files (this stC) = MyFileListInput.files o
  ∧ through val stC = selection stC
  ∧ through r stC = selection stC.
Proof.
  intros Ho H1%keeps_files H2%keeps_files. cbn zeta.
  destruct (set_value_state st val o Ho) as (Hfiles1 & Hsets1 & Hwr1).
  set (st1 := (set_value val st).2) in *.
  destruct (run_frame acts1 st1) as (_ & _ & [new1 HwrA] & HfilesA).
  specialize (HfilesA H1).
  set (stA := run acts1 st1) in *.
  rewrite (get_value_state stA). cbn [fst snd].
  set (stB := {| this := this stA; world := _ |}).
  destruct (run_frame acts2 stB) as (_ & _ & [new2 HwrC] & HfilesC).
  specialize (HfilesC H2).
  set (stC := run acts2 stB) in *.
  assert (files (this stC) = MyFileListInput.files o) as Hfiles
    by (rewrite HfilesC; subst stB; cbn; congruence).
  assert (wrappers (world stB) !! length (wrappers (world stA)) =
          Some (MyFileListInput.new (MyFileListInput.files o))) as HB.
  { subst stB. cbn. rewrite lookup_app_r by done.
    rewrite Nat.sub_diag. cbn. congruence. }
  assert (wrappers (world stC) !! val = Some o) as HvalC.
  { rewrite HwrC. apply lookup_app_l_Some. subst stB. cbn.
    apply lookup_app_l_Some. rewrite HwrA. apply lookup_app_l_Some.
    by rewrite Hwr1. }
  assert (wrappers (world stC) !! length (wrappers (world stA)) =
          Some (MyFileListInput.new (MyFileListInput.files o))) as HrC.
  { rewrite HwrC. by apply lookup_app_l_Some. }
  split_and!; try done.
  - by apply lookup_ge_None.
  - unfold through, selection. rewrite HvalC. cbn. by rewrite Hfiles.
  - unfold through, selection. rewrite HrC. cbn. by rewrite Hfiles.
Qed.

Lemma value_is_shared_witness :
  let acts1 := [Do (m_removeFile fileA)] in
  let acts2 := [Do (m_onFilesAdded [(code_units "0", 3)])] in
  let st1 := (set_value 0 wrapper_ready).2 in
  let stA := run acts1 st1 in
  let r := length (wrappers (world stA)) in
  let stB := (get_value stA).2 in
  let stC := run acts2 stB in
  files (this st1) = 1
  ∧ sets (world st1) = sets (world wrapper_ready)
  ∧ (get_value stA).1 = Normal r
  ∧ wrappers (world stA) !! r = None
  ∧ wrappers (world stB) !! r = Some (MyFileListInput.new 1)
  ∧ files (this stC) = 1
  ∧ through 0 stC = selection stC
  ∧ through r stC = selection stC.
Proof.
  apply (value_is_shared wrapper_ready 0 (MyFileListInput.new 1)
           [Do (m_removeFile fileA)] [Do (m_onFilesAdded [(code_units "0", 3)])]).
  - reflexivity.
  - reflexivity.
  - reflexivity.
Defined.

(** * Further properties of the component *)

(** ** The key filter of [onFilesAdded], characterised *)

Lemma skip_white_space_split (s : JsString) :
  exists ws,
    s = ws ++ skip_white_space s
    ∧ forallb is_StrWhiteSpaceChar ws = true
    ∧ match skip_white_space s with
      | c :: _ => is_StrWhiteSpaceChar c = false
      | [] => True
      end.
Proof.
  induction s as [| c s (ws & Hs & Hws & Hhd)].
  - by exists [].
  - cbn [skip_white_space]. destruct (is_StrWhiteSpaceChar c) eqn:Hc.
    + exists (c :: ws). cbn. rewrite Hc. split_and!; [by f_equal | done | done].
    + exists []. by rewrite Hc.
Qed.

Lemma skip_white_space_app (ws s : JsString) :
  forallb is_StrWhiteSpaceChar ws = true ->
  skip_white_space (ws ++ s) = skip_white_space s.
Proof.
  induction ws as [| c ws IH]; [done |].
  cbn. intros [Hc Hws]%andb_true_iff. rewrite Hc. by apply IH.
Qed.

(** X1: the loop of [onFilesAdded] lets a key through exactly when the
    key consists of white space, then at most one sign, then a decimal
    digit, then anything at all. *)
Theorem numeric_key_iff (key : JsString) :
  numeric_key key = true ↔
  exists ws sign d rest,
    key = ws ++ sign ++ d :: rest
    ∧ forallb is_StrWhiteSpaceChar ws = true
    ∧ (sign = [] ∨ sign = [45%N] ∨ sign = [43%N])
    ∧ is_decimal_digit d = true.
Proof.
  unfold numeric_key, parseInt10. split.
  - destruct (skip_white_space_split key) as (ws & Hkey & Hws & Hhd).
    destruct (skip_white_space key) as [| c r] eqn:Hskip; [done |].
    destruct (c =? 45)%N eqn:Hminus; [| destruct (c =? 43)%N eqn:Hplus].
    + apply N.eqb_eq in Hminus as ->.
      destruct r as [| d rest]; [done |]. cbn [digit_prefix].
      destruct (is_decimal_digit d) eqn:Hd; [| done]. intros _.
      exists ws, [45%N], d, rest. split_and!; auto.
    + apply N.eqb_eq in Hplus as ->.
      destruct r as [| d rest]; [done |]. cbn [digit_prefix].
      destruct (is_decimal_digit d) eqn:Hd; [| done]. intros _.
      exists ws, [43%N], d, rest. split_and!; auto.
    + cbn [digit_prefix]. destruct (is_decimal_digit c) eqn:Hc; [| done]. intros _.
      exists ws, [], c, r. split_and!; auto.
  - intros (ws & sign & d & rest & -> & Hws & Hsign & Hd).
    rewrite skip_white_space_app by done.
    destruct (digit_not_white_space d Hd) as (Hdws & Hdminus & Hdplus).
    destruct Hsign as [-> | [-> | ->]]; cbn.
    + rewrite Hdws, Hdminus, Hdplus. cbn. by rewrite Hd.
    + by rewrite Hd.
    + by rewrite Hd.
Qed.

(** ** Order and size of the selection *)

Lemma Set_add_all_appends (fs : list File) (s : JsSet) :
  exists appended,
    Set_add_all fs s = s ++ appended
    ∧ (forall g, g ∈ appended ↔ g ∈ fs ∧ g ∉ s)
    ∧ length appended <= length fs.
Proof.
  revert s. induction fs as [| f fs IH]; intros s.
  - exists []. cbn. rewrite app_nil_r. split_and!; [done | | done].
    intros g. rewrite elem_of_nil. tauto.
  - cbn. unfold Set_add at 2, Set_has. case_bool_decide as Hin.
    + destruct (IH s) as (app & Heq & Hmem & Hlen). exists app.
      split_and!; [done | | lia].
      intros g. rewrite Hmem, elem_of_cons. split; [tauto |].
      intros [[-> | ?] ?]; tauto.
    + destruct (IH (s ++ [f])) as (app & Heq & Hmem & Hlen).
      exists (f :: app). unfold Set_add_all in Heq. rewrite Heq.
      split_and!; [by rewrite <- app_assoc | | cbn; lia].
      intros g. rewrite !elem_of_cons, Hmem, elem_of_app, list_elem_of_singleton.
      destruct (decide (g = f)) as [-> | Hne]; tauto.
Qed.

Lemma added_files_app (a b : FileCollection) :
  added_files (a ++ b) = added_files a ++ added_files b.
Proof. unfold added_files. by rewrite list.filter_app, fmap_app. Qed.

Lemma added_files_length (selected : FileCollection) :
  length (added_files selected) <= length selected.
Proof. unfold added_files. rewrite length_fmap. apply length_filter. Qed.

Lemma removeFile_selection (st : State) (file : File) (s : JsSet) :
  selection st = Some s ->
  selection (removeFile file st).2 = Some (Set_delete file s).1.
Proof.
  intros Hsel. pose proof (selection_lt st s Hsel) as Hlt.
  unfold selection in *. unfold_M. rewrite Hsel. cbn.
  destruct (_onChange (this st)); cbn; by apply list_lookup_insert_eq.
Qed.

Lemma Set_delete_found (f : File) (s : JsSet) :
  (Set_delete f s).2 = bool_decide (f ∈ s).
Proof.
  induction s as [| x s IH]; [done |]. cbn.
  destruct (decide (x = f)) as [-> | Hne]; cbn.
  - symmetry. apply bool_decide_eq_true_2, elem_of_cons. by left.
  - destruct (Set_delete f s) as [r found]. cbn in *. rewrite IH.
    apply bool_decide_ext. rewrite elem_of_cons.
    split; [intros ?; by right | intros [-> | ?]; done].
Qed.

Lemma Set_delete_length (f : File) (s : JsSet) :
  length s = length (Set_delete f s).1 + (if (Set_delete f s).2 then 1 else 0).
Proof.
  induction s as [| x s IH]; [done |]. cbn.
  destruct (decide (x = f)); cbn; [lia |].
  destruct (Set_delete f s) as [r found]. cbn in *. lia.
Qed.

Lemma Set_delete_add (f : File) (s : JsSet) :
  f ∉ s -> Set_delete f (Set_add f s) = (s, true).
Proof.
  intros Hf. unfold Set_add, Set_has. rewrite bool_decide_eq_false_2 by done.
  induction s as [| x s IH]; cbn.
  - by rewrite decide_True.
  - apply not_elem_of_cons in Hf as [Hne Hs].
    rewrite decide_False by done. by rewrite IH.
Qed.

(** X2: [onFilesAdded] never reorders or drops what is selected: the old
    selection is a prefix of the new one, what is appended are the files
    let through that were not selected yet, and the selection grows by at
    most the number of entries of the picker's collection. *)
Theorem onFilesAdded_appends
    (st : State) (selected : FileCollection) (s : JsSet) :
  selection st = Some s ->
  exists appended,
    selection (onFilesAdded selected st).2 = Some (s ++ appended)
    ∧ (forall g, g ∈ appended ↔ g ∈ added_files selected ∧ g ∉ s)
    ∧ length appended <= length selected.
Proof.
  intros Hsel. rewrite (onFilesAdded_selection st selected s Hsel).
  destruct (Set_add_all_appends (added_files selected) s) as (app & -> & Hmem & Hlen).
  exists app. split_and!; [done | done |].
  pose proof (added_files_length selected). lia.
Qed.

Lemma onFilesAdded_appends_witness :
  exists appended,
    selection (onFilesAdded [(code_units "0", fileB); (code_units "1", 3)] two_files).2
      = Some ([fileA; fileB] ++ appended)
    ∧ (forall g, g ∈ appended ↔
         g ∈ added_files [(code_units "0", fileB); (code_units "1", 3)]
         ∧ g ∉ [fileA; fileB])
    ∧ length appended <= length [(code_units "0", fileB); (code_units "1", 3)].
Proof.
  apply (onFilesAdded_appends two_files _ [fileA; fileB]). reflexivity.
Defined.

(** X3: two picks in a row select what one pick of both collections, one
    after the other, selects; and picking the same collection again
    changes nothing. *)
Theorem onFilesAdded_composes
    (st : State) (first second : FileCollection) (s : JsSet) :
  selection st = Some s ->
  selection (onFilesAdded second (onFilesAdded first st).2).2
    = selection (onFilesAdded (first ++ second) st).2
  ∧ selection (onFilesAdded first (onFilesAdded first st).2).2
    = selection (onFilesAdded first st).2.
Proof.
  intros Hsel.
  pose proof (onFilesAdded_selection st first s Hsel) as H1.
  rewrite (onFilesAdded_selection _ second _ H1).
  rewrite (onFilesAdded_selection _ first _ H1).
  rewrite (onFilesAdded_selection st (first ++ second) s Hsel), H1.
  split.
  - unfold Set_add_all. by rewrite added_files_app, foldl_app.
  - f_equal. apply Set_add_all_present, list.Forall_forall.
    intros g Hg. apply elem_of_Set_add_all. by left.
Qed.

Lemma onFilesAdded_composes_witness :
  selection (onFilesAdded [(code_units "1", 3)]
               (onFilesAdded [(code_units "0", fileB)] two_files).2).2
    = selection (onFilesAdded ([(code_units "0", fileB)] ++ [(code_units "1", 3)])
                   two_files).2
  ∧ selection (onFilesAdded [(code_units "0", fileB)]
                 (onFilesAdded [(code_units "0", fileB)] two_files).2).2
    = selection (onFilesAdded [(code_units "0", fileB)] two_files).2.
Proof.
  apply (onFilesAdded_composes two_files _ _ [fileA; fileB]). reflexivity.
Defined.

(** X4: [removeFile] shortens the selection by exactly one entry when the
    file is selected and by none otherwise, whether or not a callback is
    registered; when the selection has no repeated member, removing the
    same file again finds nothing to remove. *)
Theorem removeFile_size (st : State) (file : File) (s : JsSet) :
  selection st = Some s ->
  exists s',
    selection (removeFile file st).2 = Some s'
    ∧ length s = length s' + (if bool_decide (file ∈ s) then 1 else 0)
    ∧ (NoDup s ->
       selection (removeFile file (removeFile file st).2).2 = Some s').
Proof.
  intros Hsel. pose proof (removeFile_selection st file s Hsel) as H1.
  exists (Set_delete file s).1. split_and!; [done | |].
  - rewrite <- Set_delete_found. apply Set_delete_length.
  - intros Hnd. rewrite (removeFile_selection _ file _ H1).
    rewrite Set_delete_absent; [done |].
    rewrite elem_of_Set_delete by done. tauto.
Qed.

Lemma removeFile_size_witness :
  exists s',
    selection (removeFile fileA two_files).2 = Some s'
    ∧ length [fileA; fileB] = length s' + (if bool_decide (fileA ∈ [fileA; fileB]) then 1 else 0)
    ∧ (NoDup [fileA; fileB] ->
       selection (removeFile fileA (removeFile fileA two_files).2).2 = Some s').
Proof.
  apply (removeFile_size two_files fileA [fileA; fileB]). reflexivity.
Defined.

(** X5: picking one file that is not selected and then removing it brings
    the selection back to what it was, order included. *)
Theorem add_then_remove_restores
    (st : State) (key : JsString) (file : File) (s : JsSet) :
  selection st = Some s ->
  numeric_key key = true ->
  file ∉ s ->
  selection (removeFile file (onFilesAdded [(key, file)] st).2).2 = Some s.
Proof.
  intros Hsel Hkey Hfile.
  pose proof (onFilesAdded_selection st [(key, file)] s Hsel) as H1.
  rewrite (removeFile_selection _ file _ H1).
  rewrite added_files_cons, Hkey. cbn. by rewrite Set_delete_add.
Qed.

Lemma add_then_remove_restores_witness :
  selection (removeFile 3 (onFilesAdded [(code_units "0", 3)] two_files).2).2
  = Some [fileA; fileB].
Proof.
  apply (add_then_remove_restores two_files (code_units "0") 3 [fileA; fileB]).
  - reflexivity.
  - reflexivity.
  - apply (bool_decide_unpack (3 ∉ [fileA; fileB])). vm_compute. exact I.
Defined.

(** ** The change callback over time *)

Lemma invoke_onChange (m : Method) (st : State) :
  _onChange (this (invoke m st).2) =
  match m with
  | m_registerOnChange fn => Some fn
  | _ => _onChange (this st)
  end.
Proof.
  destruct m.
  12: {
    cbn [invoke]. unfold onFilesAdded, mbind, M_bind.
    destruct (for_in_frame selected st) as (c & ss & -> & _ & _).
    destruct c; cbn; unfold_M; [destruct (_onChange (this st)) eqn:Hfn |]; cbn; done. }
  all: unfold_M; repeat case_match; simplify_eq/=; done.
Qed.

Lemma step_onChange (a : Action) (st : State) :
  is_Some (_onChange (this st)) -> is_Some (_onChange (this (step a st))).
Proof.
  destruct a as [m | fs | fs | r f | r f | ngc el input]; cbn [step].
  - rewrite invoke_onChange. by destruct m.
  - done.
  - done.
  - by destruct (sets (world st) !! r).
  - by destruct (sets (world st) !! r).
  - done.
Qed.

Lemma possible_run_reachable (acts : list Action) (st : State) :
  reachable st -> possible_run acts st -> reachable (run acts st).
Proof.
  revert st. induction acts as [| a acts IH]; intros st Hreach Hrun; [done |].
  destruct Hrun as [Ha Hrest]. apply (IH (step a st)); [| done].
  by apply reachable_step.
Qed.

Lemma run_onChange (acts : list Action) (st : State) :
  is_Some (_onChange (this st)) -> is_Some (_onChange (this (run acts st))).
Proof.
  revert st. induction acts as [| a acts IH]; intros st Hfn; [done |].
  apply (IH (step a st)), step_onChange, Hfn.
Qed.

(** X6: when a mutating method raises for want of a callback, its effect
    is not undone: the selection has already been changed (or [this.files]
    reassigned), [stateChanges.next()] has been called once, and no
    callback has been invoked. *)
Theorem throw_keeps_partial_effects (st : State) (s : JsSet) :
  selection st = Some s ->
  _onChange (this st) = None ->
  let sc := stateChanges (this st) in
  (forall file,
     selection (removeFile file st).2 = Some (Set_delete file s).1
     ∧ calls (world (removeFile file st).2) = calls (world st) ++ [Subject_next sc])
  ∧ (forall selected,
       selection (onFilesAdded selected st).2
         = Some (Set_add_all (added_files selected) s)
       ∧ calls (world (onFilesAdded selected st).2)
         = calls (world st) ++ [Subject_next sc])
  ∧ (forall val o,
       wrappers (world st) !! val = Some o ->
       files (this (set_value val st).2) = MyFileListInput.files o
       ∧ calls (world (set_value val st).2) = calls (world st) ++ [Subject_next sc]).
Proof.
  intros Hsel Hfn. cbn zeta. split_and!.
  - intros file. split; [by apply removeFile_selection |].
    unfold selection in Hsel. unfold_M. rewrite Hsel. cbn. by rewrite Hfn.
  - intros selected. split; [by apply onFilesAdded_selection |].
    unfold onFilesAdded, mbind at 1, M_bind at 1.
    rewrite (for_in_spec selected st s Hsel). unfold_M. by rewrite Hfn.
  - intros val o Ho. unfold_M. rewrite Ho. cbn. by rewrite Hfn.
Qed.

Lemma throw_keeps_partial_effects_witness :
  let sc := stateChanges (this standalone) in
  (forall file,
     selection (removeFile file standalone).2 = Some (Set_delete file []).1
     ∧ calls (world (removeFile file standalone).2)
       = calls (world standalone) ++ [Subject_next sc])
  ∧ (forall selected,
       selection (onFilesAdded selected standalone).2
         = Some (Set_add_all (added_files selected) [])
       ∧ calls (world (onFilesAdded selected standalone).2)
         = calls (world standalone) ++ [Subject_next sc])
  ∧ (forall val o,
       wrappers (world standalone) !! val = Some o ->
       files (this (set_value val standalone).2) = MyFileListInput.files o
       ∧ calls (world (set_value val standalone).2)
         = calls (world standalone) ++ [Subject_next sc]).
Proof.
  apply (throw_keeps_partial_effects standalone []).
  - reflexivity.
  - reflexivity.
Defined.

(** X7: no method ever clears the callback, so once [registerOnChange]
    has run, every method called after any possible run returns
    normally. *)
Theorem registered_stays_registered
    (st : State) (acts : list Action) (m : Method) :
  reachable st ->
  is_Some (_onChange (this st)) ->
  possible_run acts st ->
  possible (run acts st) (Do m) ->
  is_Some (_onChange (this (run acts st)))
  ∧ (invoke m (run acts st)).1 = Normal ().
Proof.
  intros Hreach Hfn Hrun Hm.
  pose proof (run_onChange acts st Hfn) as [fn Hfn'].
  split; [by exists fn |].
  apply (methods_return_normally _ m fn); [| done | done].
  by apply reachable_wf, possible_run_reachable.
Qed.

Lemma registered_stays_registered_witness :
  is_Some (_onChange (this (run [Do (m_removeFile fileA); Do m_ngOnDestroy] two_files)))
  ∧ (invoke (m_onFilesAdded [(code_units "0", 3)])
       (run [Do (m_removeFile fileA); Do m_ngOnDestroy] two_files)).1 = Normal ().
Proof.
  apply (registered_stays_registered two_files
           [Do (m_removeFile fileA); Do m_ngOnDestroy]
           (m_onFilesAdded [(code_units "0", 3)])).
  - unfold two_files, wrapper_ready, in_form, run. cbn [foldl].
    repeat (apply reachable_step; [| first [exact I | vm_compute; lia]]).
    apply reachable_constructor, page_init.
  - eexists. reflexivity.
  - vm_compute. tauto.
  - exact I.
Defined.

(** X8: [registerOnChange] replaces the stored callback: after two
    registrations a mutating method invokes the second callback, once,
    and not the first. *)
Theorem last_registered_callback_wins
    (st : State) (m : Method) (f1 f2 : Callback) (s : JsSet) :
  selection st = Some s ->
  is_mutator st m ->
  let st2 := (registerOnChange f2 (registerOnChange f1 st).2).2 in
  (invoke m st2).1 = Normal ()
  ∧ calls (world (invoke m st2).2) =
      (calls (world st) ++
       [Subject_next (stateChanges (this st));
        Invoke f2 (files (this (invoke m st2).2))]).
Proof.
  intros Hsel Hmut. cbn zeta.
  set (st2 := (registerOnChange f2 (registerOnChange f1 st).2).2).
  assert (selection st2 = Some s) as Hsel2 by exact Hsel.
  assert (is_mutator st2 m) as Hmut2 by (by destruct m).
  destruct (mutator_log st2 m s Hsel2 Hmut2) as (st1 & Hthis & Hcalls & ->).
  assert (_onChange (this st1) = Some f2) as Hfn1 by (by rewrite Hthis).
  assert (stateChanges (this st1) = stateChanges (this st)) as Hsc by (by rewrite Hthis).
  unfold_M. rewrite Hfn1. cbn. rewrite Hsc, Hcalls.
  split; [done |]. by rewrite <- app_assoc.
Qed.

Lemma last_registered_callback_wins_witness :
  let st2 := (registerOnChange 8 (registerOnChange 7 two_files).2).2 in
  (invoke (m_removeFile fileA) st2).1 = Normal ()
  ∧ calls (world (invoke (m_removeFile fileA) st2).2) =
      (calls (world two_files) ++
       [Subject_next (stateChanges (this two_files));
        Invoke 8 (files (this (invoke (m_removeFile fileA) st2).2))]).
Proof.
  apply (last_registered_callback_wins two_files (m_removeFile fileA) 7 8 [fileA; fileB]).
  - reflexivity.
  - exact I.
Defined.

(** ** Reading the value *)

(** X9: reading [value] changes nothing but the heap of wrappers: every
    read allocates a new wrapper, so two reads in a row return two
    different references, both holding the reference [this.files]. *)
Theorem value_reads_are_distinct (st : State) :
  exists r1 r2 st1 st2,
    get_value st = (Normal r1, st1)
    ∧ get_value st1 = (Normal r2, st2)
    ∧ r1 ≠ r2
    ∧ wrappers (world st2) !! r1 = Some (MyFileListInput.new (files (this st)))
    ∧ wrappers (world st2) !! r2 = Some (MyFileListInput.new (files (this st)))
    ∧ this st2 = this st
    ∧ sets (world st2) = sets (world st)
    ∧ calls (world st2) = calls (world st).
Proof.
  rewrite (get_value_state st). do 4 eexists. split; [reflexivity |].
  rewrite get_value_state. cbn [this world wrappers with_wrappers].
  split; [reflexivity |]. cbn. rewrite !length_app. cbn.
  split_and!; try done.
  - lia.
  - rewrite <- app_assoc. rewrite lookup_app_r by lia.
    by rewrite Nat.sub_diag.
  - rewrite lookup_app_r by (rewrite length_app; cbn; lia).
    rewrite length_app. cbn.
    replace (length (wrappers (world st)) + 1 - (length (wrappers (world st)) + 1))
      with 0 by lia.
    done.
Qed.

(** ** Focus *)

(** X10: the focus subscriber sets [focused] to whether an origin was
    pushed, calls [stateChanges.next()] once and leaves the selection
    alone; after a focus the label floats whatever is selected, and after
    a blur it floats exactly when something is selected. *)
Theorem focus_drives_the_label (st : State) (origin : option FocusOrigin) (s : JsSet) :
  selection st = Some s ->
  let st' := (on_focus_origin origin st).2 in
  (on_focus_origin origin st).1 = Normal ()
  ∧ focused (this st') = bool_decide (origin ≠ None)
  ∧ selection st' = Some s
  ∧ calls (world st') = calls (world st) ++ [Subject_next (stateChanges (this st))]
  ∧ (get_shouldLabelFloat st').1 =
      Normal (match origin with
              | Some _ => true
              | None => negb (bool_decide (s = []))
              end).
Proof.
  intros Hsel. unfold selection in *. destruct origin as [o |]; unfold_M.
  - split_and!; done.
  - rewrite Hsel. cbn. split_and!; try done.
    destruct s as [| x s]; cbn; [done |].
    repeat case_bool_decide; try done; lia.
Qed.

Lemma focus_drives_the_label_witness :
  let st' := (on_focus_origin None two_files).2 in
  (on_focus_origin None two_files).1 = Normal ()
  ∧ focused (this st') = bool_decide (@None FocusOrigin ≠ None)
  ∧ selection st' = Some [fileA; fileB]
  ∧ calls (world st') =
      calls (world two_files) ++ [Subject_next (stateChanges (this two_files))]
  ∧ (get_shouldLabelFloat st').1 =
      Normal (match @None FocusOrigin with
              | Some _ => true
              | None => negb (bool_decide ([fileA; fileB] = []))
              end).
Proof.
  apply (focus_drives_the_label two_files None [fileA; fileB]). reflexivity.
Defined.

(** ** Sets shared with the page *)

(** X13: the setter keeps the caller's [Set], so a later change the page
    makes to that [Set] changes the selection without any call to
    [stateChanges.next()] or to the change callback. *)
Theorem page_changes_bypass_notifications
    (st : State) (val : WrapperRef) (o : MyFileListInput.t) (s : JsSet) (f : File) :
  wrappers (world st) !! val = Some o ->
  sets (world st) !! MyFileListInput.files o = Some s ->
  let st1 := (set_value val st).2 in
  let st2 := step (Page_Set_add (MyFileListInput.files o) f) st1 in
  selection st1 = Some s
  ∧ selection st2 = Some (Set_add f s)
  ∧ calls (world st2) = calls (world st1).
Proof.
  intros Ho Hs. cbn zeta.
  destruct (set_value_state st val o Ho) as (Hfiles & Hsets & _).
  set (st1 := (set_value val st).2) in *.
  assert (selection st1 = Some s) as Hsel1
    by (unfold selection; by rewrite Hfiles, Hsets).
  split; [done |]. cbn [step]. rewrite Hsets, Hs. unfold_M.
  unfold selection. cbn. rewrite Hfiles. split; [| done].
  apply list_lookup_insert_eq. rewrite Hsets. by eapply lookup_lt_Some.
Qed.

Lemma page_changes_bypass_notifications_witness :
  let st1 := (set_value 0 wrapper_ready).2 in
  let st2 := step (Page_Set_add 1 3) st1 in
  selection st1 = Some [fileA; fileB]
  ∧ selection st2 = Some (Set_add 3 [fileA; fileB])
  ∧ calls (world st2) = calls (world st1).
Proof.
  apply (page_changes_bypass_notifications wrapper_ready 0 (MyFileListInput.new 1)
           [fileA; fileB] 3).
  - reflexivity.
  - reflexivity.
Defined.

(** ** What each method may change *)

Lemma invoke_this (m : Method) (st : State) :
  let c := this st in
  let c' := this (invoke m st).2 in
  same_identity c c'
  ∧ ((forall v, m ≠ m_set_disabled v) -> _disabled c' = _disabled c)
  ∧ ((forall v, m ≠ m_set_required v) -> _required c' = _required c)
  ∧ ((forall o, m ≠ m_focus_origin o) -> focused c' = focused c)
  ∧ ((forall ids, m ≠ m_setDescribedByIds ids) -> describedBy c' = describedBy c)
  ∧ subjects (world (invoke m st).2) = subjects (world st).
Proof.
  unfold same_identity. destruct m.
  12: {
    cbn [invoke]. unfold onFilesAdded, mbind, M_bind.
    destruct (for_in_frame selected st) as (c & ss & -> & _ & _).
    destruct c; cbn; unfold_M; [destruct (_onChange (this st)) |]; cbn.
    all: split_and!; done. }
  all: unfold_M; repeat case_match; simplify_eq/=.
  all: split_and!; try done.
  all: intros Hne; exfalso; eapply Hne; reflexivity.
Qed.

(** X14: the id, the [stateChanges] subject, the element reference, the
    form control, the hidden input, [errorState] and [controlType] of an
    instance are the same after any run as at the start. *)
Theorem identity_is_fixed (acts : list Action) (st : State) :
  same_identity (this st) (this (run acts st)).
Proof.
  induction acts as [| a acts IH] using rev_ind; [by repeat split |].
  rewrite run_snoc.
  assert (same_identity (this (run acts st)) (this (step a (run acts st)))) as Hstep.
  { destruct a as [m | fs | fs | r f | r f | ngc el input]; cbn [step].
    - apply invoke_this.
    - by repeat split.
    - by repeat split.
    - destruct (sets (world (run acts st)) !! r); by repeat split.
    - destruct (sets (world (run acts st)) !! r); by repeat split.
    - by repeat split. }
  unfold same_identity in *.
  destruct IH as (? & ? & ? & ? & ? & ? & ?).
  destruct Hstep as (? & ? & ? & ? & ? & ? & ?).
  split_and!; congruence.
Qed.

(** X15: [disabled] changes only through its setter (in particular not
    through [setDisabledState]), [required] only through its setter,
    [focused] only through the focus subscriber and [describedBy] only
    through [setDescribedByIds]. *)
Theorem flags_change_only_through_their_setters (m : Method) (st : State) :
  let c := this st in
  let c' := this (invoke m st).2 in
  ((forall v, m ≠ m_set_disabled v) -> _disabled c' = _disabled c)
  ∧ ((forall v, m ≠ m_set_required v) -> _required c' = _required c)
  ∧ ((forall o, m ≠ m_focus_origin o) -> focused c' = focused c)
  ∧ ((forall ids, m ≠ m_setDescribedByIds ids) -> describedBy c' = describedBy c)
  ∧ (forall b, _disabled (this (setDisabledState b st).2) = _disabled c).
Proof.
  cbn zeta. destruct (invoke_this m st) as (_ & Hd & Hr & Hf & Hb & _).
  split_and!; done.
Qed.

(** ** Which methods notify, and which can fail *)

Lemma mutator_dec (st : State) (m : Method) :
  possible st (Do m) -> is_mutator st m ∨ ¬ is_mutator st m.
Proof. destruct m; cbn; tauto. Qed.

(** X16: a method calls [stateChanges.next()] exactly once when it is the
    value setter, [onFilesAdded], [removeFile], one of the two flag
    setters or the focus subscriber, and never otherwise; the change
    callback is invoked only by the first three. *)
Theorem notifications_by_method (st : State) (m : Method) (s : JsSet) :
  selection st = Some s ->
  possible st (Do m) ->
  exists new,
    calls (world (invoke m st).2) = calls (world st) ++ new
    ∧ count_call (Subject_next (stateChanges (this st))) new
      = (if notifies m then 1 else 0)
    ∧ (forall fn arg,
         Invoke fn arg ∈ new -> is_mutator st m ∧ _onChange (this st) = Some fn).
Proof.
  intros Hsel Hpos. destruct (mutator_dec st m Hpos) as [Hmut | Hnot].
  - destruct (mutator_log st m s Hsel Hmut) as (st1 & Hthis & Hcalls & ->).
    assert (_onChange (this st1) = _onChange (this st)) as Hfn by (by rewrite Hthis).
    assert (stateChanges (this st1) = stateChanges (this st)) as Hsc by (by rewrite Hthis).
    assert (notifies m = true) as -> by (by destruct m).
    unfold_M. rewrite Hfn, Hsc, Hcalls.
    destruct (_onChange (this st)) as [fn |]; cbn.
    + eexists. split; [by rewrite <- app_assoc |].
      unfold count_call. cbn. rewrite decide_True by done. split; [done |].
      intros fn' arg. rewrite !elem_of_cons, elem_of_nil.
      intros [? | [[= -> _] | []]]; done.
    + eexists. split; [reflexivity |].
      unfold count_call. cbn. rewrite decide_True by done. split; [done |].
      intros fn' arg. rewrite !elem_of_cons, elem_of_nil.
      intros [? | []]; done.
  - unfold selection in Hsel. destruct m; cbn in Hnot; try tauto.
    all: unfold_M; rewrite ?Hsel; cbn.
    all: try (destruct (focused (this st)); cbn; rewrite ?Hsel; cbn).
    all: first
      [ exists []; split_and!;
        [ by rewrite app_nil_r | done
        | intros ? ? Hin; by apply elem_of_nil in Hin ]
      | eexists; split; [first [reflexivity | by rewrite <- app_assoc] |];
        unfold count_call; cbn; rewrite ?decide_True by done; split; [done |];
        intros ? ?; rewrite ?elem_of_cons, elem_of_nil; intros Hin;
        repeat (destruct Hin as [Hin | Hin]; [discriminate Hin |]);
        destruct Hin ].
Qed.

Lemma notifications_by_method_witness :
  exists new,
    calls (world (invoke (m_set_required (JsStr "")) two_files).2)
      = calls (world two_files) ++ new
    ∧ count_call (Subject_next (stateChanges (this two_files))) new
      = (if notifies (m_set_required (JsStr "")) then 1 else 0)
    ∧ (forall fn arg,
         Invoke fn arg ∈ new ->
         is_mutator two_files (m_set_required (JsStr ""))
         ∧ _onChange (this two_files) = Some fn).
Proof.
  apply (notifications_by_method two_files (m_set_required (JsStr "")) [fileA; fileB]).
  - reflexivity.
  - exact I.
Defined.



(** X18: the selection changes only through the value setter,
    [onFilesAdded] and [removeFile]: every other method, [addFiles],
    [writeValue] and [ngOnDestroy] included, leaves every [Set] on the
    heap and the reference [this.files] as they were. *)
Theorem selection_changes_only_through_mutators (m : Method) (st : State) :
  (forall val, m ≠ m_set_value val) ->
  (forall selected, m ≠ m_onFilesAdded selected) ->
  (forall file, m ≠ m_removeFile file) ->
  sets (world (invoke m st).2) = sets (world st)
  ∧ files (this (invoke m st).2) = files (this st)
  ∧ selection (invoke m st).2 = selection st.
Proof.
  intros Hval Hadd Hrem. unfold selection.
  destruct m;
    try (exfalso;
         first [ eapply Hval; reflexivity
               | eapply Hadd; reflexivity
               | eapply Hrem; reflexivity ]).
  all: unfold_M; repeat case_match; simplify_eq/=; done.
Qed.

Lemma selection_changes_only_through_mutators_witness :
  sets (world (invoke m_addFiles two_files).2) = sets (world two_files)
  ∧ files (this (invoke m_addFiles two_files).2) = files (this two_files)
  ∧ selection (invoke m_addFiles two_files).2 = selection two_files.
Proof.
  apply (selection_changes_only_through_mutators m_addFiles two_files).
  - intros val. discriminate.
  - intros selected. discriminate.
  - intros file. discriminate.
Defined.

(** ** Construction *)

Lemma step_heap_grows (a : Action) (st : State) :
  length (sets (world st)) <= length (sets (world (step a st)))
  ∧ subjects (world st) <= subjects (world (step a st)).
Proof.
  destruct a as [m | fs | fs | r f | r f | ngc el input]; cbn [step].
  - destruct (invoke_frame m st) as (_ & _ & _ & -> & _).
    destruct (invoke_this m st) as (_ & _ & _ & _ & _ & ->). lia.
  - unfold_M. rewrite length_app. cbn. lia.
  - unfold_M. lia.
  - destruct (sets (world st) !! r); unfold_M; rewrite ?length_insert; lia.
  - destruct (sets (world st) !! r); unfold_M; rewrite ?length_insert; lia.
  - destruct ngc; cbn; rewrite length_app; cbn; lia.
Qed.

Lemma run_heap_grows (acts : list Action) (st : State) :
  length (sets (world st)) <= length (sets (world (run acts st)))
  ∧ subjects (world st) <= subjects (world (run acts st)).
Proof.
  induction acts as [| a acts IH] using rev_ind; [cbn; lia |].
  rewrite run_snoc. pose proof (step_heap_grows a (run acts st)). lia.
Qed.

Lemma constructor_heap (ngc : option NgControl) (el input : Element) (w : World) :
  let st := constructor ngc el input w in
  files (this st) = length (sets w)
  ∧ stateChanges (this st) = subjects w
  ∧ sets (world st) = sets w ++ [[]]
  ∧ subjects (world st) = S (subjects w)
  ∧ wrappers (world st) = wrappers w.
Proof. by destruct ngc. Qed.

Lemma getters_selection (st : State) (s : JsSet) :
  selection st = Some s ->
  (get_empty st).1 = Normal (bool_decide (Set_size s < 1))
  ∧ (get_shouldLabelFloat st).1 =
      Normal (focused (this st) || negb (bool_decide (Set_size s < 1))).
Proof.
  unfold selection. intros Hs.
  destruct (focused (this st)) eqn:Hfoc; unfold_M; rewrite ?Hfoc, ?Hs; done.
Qed.

(** X11: a new instance starts with an empty selection held in a [Set]
    of its own: no wrapper on the page refers to it, the sets already on
    the heap are untouched, [empty] is true, the label does not float,
    both flags are false and no callback is stored. *)
Theorem new_instance_is_empty_and_unshared
    (ngc : option NgControl) (el input : Element) (w : World) :
  page w ->
  let st := constructor ngc el input w in
  selection st = Some []
  ∧ (get_empty st).1 = Normal true
  ∧ (get_shouldLabelFloat st).1 = Normal false
  ∧ _required (this st) = false
  ∧ _disabled (this st) = false
  ∧ _onChange (this st) = None
  ∧ Forall (fun o => MyFileListInput.files o ≠ files (this st)) (wrappers (world st))
  ∧ (forall r, r < length (sets w) -> sets (world st) !! r = sets w !! r).
Proof.
  intros Hpage. destruct (page_wf w Hpage) as [Hwr _]. cbn zeta.
  destruct (constructor_heap ngc el input w) as (Hfiles & _ & Hsets & _ & Hwrappers).
  assert (selection (constructor ngc el input w) = Some []) as Hsel.
  { unfold selection. rewrite Hfiles, Hsets, lookup_app_r by done.
    by rewrite Nat.sub_diag. }
  destruct (getters_selection _ _ Hsel) as [Hempty Hfloat].
  split_and!; try by destruct ngc.
  all: try (rewrite Hfloat; by destruct ngc).
  - rewrite Hwrappers, Hfiles. eapply list.Forall_impl; [exact Hwr |].
    cbn. intros o Ho. lia.
  - intros r Hr. rewrite Hsets. by apply lookup_app_l.
Qed.

Lemma new_instance_is_empty_and_unshared_witness :
  let st := constructor None 0 1 busy_page in
  selection st = Some []
  ∧ (get_empty st).1 = Normal true
  ∧ (get_shouldLabelFloat st).1 = Normal false
  ∧ _required (this st) = false
  ∧ _disabled (this st) = false
  ∧ _onChange (this st) = None
  ∧ Forall (fun o => MyFileListInput.files o ≠ files (this st)) (wrappers (world st))
  ∧ (forall r, r < length (sets busy_page) ->
       sets (world st) !! r = sets busy_page !! r).
Proof.
  apply (new_instance_is_empty_and_unshared None 0 1 busy_page).
  unfold busy_page. apply page_new_wrapper.
  - apply page_new_Set, page_init.
  - vm_compute. lia.
Defined.

Lemma session_separate (plan : list (Args * list Action)) (w : World) :
  Forall (fun c => length (sets w) <= files c ∧ subjects w <= stateChanges c)
         (session plan w).1
  ∧ NoDup (files <$> (session plan w).1)
  ∧ NoDup (stateChanges <$> (session plan w).1).
Proof.
  revert w. induction plan as [| [[[ngc el] input] acts] rest IH]; intros w.
  - cbn. split_and!; constructor.
  - rewrite session_cons.
    set (st := constructor ngc el input w).
    destruct (IH (world (run acts st))) as (Hge & Hnd1 & Hnd2).
    destruct (constructor_heap ngc el input w) as (Hfiles & Hsc & Hsets & Hsub & _).
    fold st in Hfiles, Hsc, Hsets, Hsub.
    destruct (run_heap_grows acts st) as [Hgrow1 Hgrow2].
    rewrite Hsets, length_app in Hgrow1. cbn in Hgrow1. rewrite Hsub in Hgrow2.
    split_and!.
    + constructor; [lia |].
      eapply list.Forall_impl; [exact Hge |]. cbn. intros c [? ?]. lia.
    + rewrite fmap_cons. apply list.NoDup_cons. split; [| done].
      intros (c & Heq & Hc)%list_elem_of_fmap.
      rewrite list.Forall_forall in Hge. destruct (Hge c Hc) as [Hc1 _]. lia.
    + rewrite fmap_cons. apply list.NoDup_cons. split; [| done].
      intros (c & Heq & Hc)%list_elem_of_fmap.
      rewrite list.Forall_forall in Hge. destruct (Hge c Hc) as [_ Hc2]. lia.
Qed.

(** X12: the instances constructed in one page session start with
    pairwise different [Set] objects and pairwise different
    [stateChanges] subjects, whatever happens in between, and none of
    them starts on a [Set] that was on the heap before the session. *)
Theorem instances_start_separate (plan : list (Args * list Action)) (w : World) :
  let instances := (session plan w).1 in
  (forall i j ci cj,
     i ≠ j -> instances !! i = Some ci -> instances !! j = Some cj ->
     files ci ≠ files cj ∧ stateChanges ci ≠ stateChanges cj)
  ∧ Forall (fun c => sets w !! files c = None) instances.
Proof.
  cbn zeta. destruct (session_separate plan w) as (Hge & Hnd1 & Hnd2). split.
  - intros i j ci cj Hij Hi Hj. split; intros Heq; apply Hij.
    + eapply NoDup_lookup; [exact Hnd1 | |].
      * rewrite list_lookup_fmap, Hi. reflexivity.
      * rewrite list_lookup_fmap, Hj. cbn. by rewrite Heq.
    + eapply NoDup_lookup; [exact Hnd2 | |].
      * rewrite list_lookup_fmap, Hi. reflexivity.
      * rewrite list_lookup_fmap, Hj. cbn. by rewrite Heq.
  - eapply list.Forall_impl; [exact Hge |]. cbn.
    intros c [Hc _]. by apply lookup_ge_None.
Qed.

(** ** Replacing the value *)

(** X19: assigning [value] changes which [Set] the component points to
    and writes to no [Set]: the one it pointed to before keeps its
    members, so a wrapper read from [value] before the assignment still
    shows the old selection, not the new one. *)
Theorem earlier_wrappers_go_stale
    (st : State) (val : WrapperRef) (o : MyFileListInput.t) :
  wrappers (world st) !! val = Some o ->
  let r := length (wrappers (world st)) in
  let st1 := (get_value st).2 in
  let st2 := (set_value val st1).2 in
  (get_value st).1 = Normal r
  ∧ sets (world st2) = sets (world st)
  ∧ through r st2 = selection st
  ∧ selection st2 = sets (world st) !! MyFileListInput.files o.
Proof.
  intros Ho. cbn zeta. rewrite (get_value_state st). cbn [fst snd].
  set (st1 := {| this := this st; world := _ |}).
  assert (wrappers (world st1) !! val = Some o) as Ho1.
  { subst st1. cbn. by apply lookup_app_l_Some. }
  destruct (set_value_state st1 val o Ho1) as (Hfiles & Hsets & Hwr).
  set (st2 := (set_value val st1).2) in *.
  split_and!; [done | by rewrite Hsets | | ].
  - unfold through, selection. rewrite Hwr, Hsets. subst st1. cbn.
    rewrite lookup_app_r by done. by rewrite Nat.sub_diag.
  - unfold selection. by rewrite Hfiles, Hsets.
Qed.

Lemma earlier_wrappers_go_stale_witness :
  let r := length (wrappers (world wrapper_ready)) in
  let st1 := (get_value wrapper_ready).2 in
  let st2 := (set_value 0 st1).2 in
  (get_value wrapper_ready).1 = Normal r
  ∧ sets (world st2) = sets (world wrapper_ready)
  ∧ through r st2 = selection wrapper_ready
  ∧ selection st2 = sets (world wrapper_ready) !! MyFileListInput.files (MyFileListInput.new 1).
Proof.
  apply (earlier_wrappers_go_stale wrapper_ready 0 (MyFileListInput.new 1)).
  reflexivity.
Defined.

(** ** A pick that adds nothing *)

(** X20: when the picker's collection has no key that is let through
    (an empty collection, or only [length] and [item]), [onFilesAdded]
    leaves the selection as it is and still calls [stateChanges.next()]
    and the change callback, once each. *)
Theorem empty_pick_still_notifies
    (st : State) (selected : FileCollection) (fn : Callback) (s : JsSet) :
  selection st = Some s ->
  _onChange (this st) = Some fn ->
  Forall (fun e => numeric_key e.1 = false) selected ->
  (onFilesAdded selected st).1 = Normal ()
  ∧ selection (onFilesAdded selected st).2 = Some s
  ∧ calls (world (onFilesAdded selected st).2) =
      (calls (world st) ++
       [Subject_next (stateChanges (this st)); Invoke fn (files (this st))]).
Proof.
  intros Hsel Hfn Hkeys.
  assert (added_files selected = []) as Hnone.
  { induction Hkeys as [| [key file] rest Hkey _ IH]; [done |].
    rewrite added_files_cons. cbn in Hkey. by rewrite Hkey. }
  pose proof (onFilesAdded_selection st selected s Hsel) as Hsel'.
  rewrite Hnone in Hsel'. cbn in Hsel'.
  split_and!; [| done |].
  - unfold onFilesAdded, mbind at 1, M_bind at 1.
    rewrite (for_in_spec selected st s Hsel). unfold_M. by rewrite Hfn.
  - unfold onFilesAdded, mbind at 1, M_bind at 1.
    rewrite (for_in_spec selected st s Hsel). unfold_M. rewrite Hfn. cbn.
    by rewrite <- app_assoc.
Qed.

Lemma empty_pick_still_notifies_witness :
  (onFilesAdded [(code_units "length", 9); (code_units "item", 9)] two_files).1
    = Normal ()
  ∧ selection
      (onFilesAdded [(code_units "length", 9); (code_units "item", 9)] two_files).2
    = Some [fileA; fileB]
  ∧ calls (world
      (onFilesAdded [(code_units "length", 9); (code_units "item", 9)] two_files).2) =
      (calls (world two_files) ++
       [Subject_next (stateChanges (this two_files));
        Invoke 0 (files (this two_files))]).
Proof.
  apply (empty_pick_still_notifies two_files _ 0 [fileA; fileB]).
  - reflexivity.
  - reflexivity.
  - repeat constructor.
Defined.
